(** * rex: command recorder, expansion engine and interpreters

    A shallow embedding of [python/rez/rex.py]: the attribute namespace
    ([AttrDict]), the two template dialects ([EnvExpand], [CustomExpand]),
    the command recorder, the routing namespace used as the scope of the
    DSL, and the command interpreters ([SH], [CSH], [Python], [WinShell]).

    Python [str] values are byte strings, modelled by [string]; dictionaries
    by [gmap], the set of already-set variables by [gset]; exceptions by the
    [result] type. *)

From Stdlib Require Import Ascii String List Bool Arith Lia.
From stdpp Require Import base option gmap strings list.

Import ListNotations.
Local Open Scope string_scope.
Local Open Scope list_scope.

(** ** Exceptions *)

Inductive exn : Type :=
| KeyError (key : string)
| AttributeError (attr : string)
| NotImplementedError
| TypeError (msg : string)
| ValueError (msg : string).

Inductive result (A : Type) : Type :=
| Ok (a : A)
| Raise (e : exn).

Arguments Ok {A} a.
Arguments Raise {A} e.

Global Instance result_ret : MRet result := fun _ a => Ok a.
Global Instance result_bind : MBind result := fun _ _ k m =>
  match m with
  | Ok a => k a
  | Raise e => Raise e
  end.

Global Instance result_fmap : FMap result := fun _ _ f m =>
  match m with
  | Ok a => Ok (f a)
  | Raise e => Raise e
  end.

(** ** Byte strings *)

Module Str.

Definition chr (c : ascii) : string := String c EmptyString.

(** [c in s] *)
Fixpoint contains (c : ascii) (s : string) : bool :=
  match s with
  | EmptyString => false
  | String d s' => Ascii.eqb c d || contains c s'
  end.

(** [s.startswith(p)] *)
Fixpoint startswith (p s : string) : bool :=
  match p, s with
  | EmptyString, _ => true
  | String a p', String b s' => Ascii.eqb a b && startswith p' s'
  | String _ _, EmptyString => false
  end.

(** [s[n:]] *)
Fixpoint drop (n : nat) (s : string) : string :=
  match n, s with
  | O, _ => s
  | S n', String _ s' => drop n' s'
  | S _, EmptyString => EmptyString
  end.

(** [s[:n]] *)
Fixpoint take (n : nat) (s : string) : string :=
  match n, s with
  | S n', String c s' => String c (take n' s')
  | _, _ => EmptyString
  end.

(** [sep.join(parts)] *)
Fixpoint join (sep : string) (parts : list string) : string :=
  match parts with
  | [] => EmptyString
  | [p] => p
  | p :: rest => p +:+ sep +:+ join sep rest
  end.

(** The loop of [s.split(sep)] for a non-empty [sep]: [cur] is the piece
    being collected and [skip] the number of characters of a separator
    occurrence that are still to be passed over. *)
Fixpoint split_go (sep : string) (skip : nat) (cur s : string) : list string :=
  match s with
  | EmptyString => [cur]
  | String c s' =>
      match skip with
      | S k => split_go sep k cur s'
      | O =>
          if startswith sep s
          then cur :: split_go sep (String.length sep - 1) EmptyString s'
          else split_go sep 0 (cur +:+ chr c) s'
      end
  end.

(** [s.split(sep)]; an empty separator is a [ValueError]. *)
Definition split (sep s : string) : result (list string) :=
  match sep with
  | EmptyString => Raise (ValueError "empty separator")
  | String _ _ => Ok (split_go sep 0 EmptyString s)
  end.

(** [s.replace(old, new)] for a one-character [old]. *)
Fixpoint replace_char (old : ascii) (new s : string) : string :=
  match s with
  | EmptyString => EmptyString
  | String c s' =>
      (if Ascii.eqb c old then new else chr c) +:+ replace_char old new s'
  end.

Definition is_upper (c : ascii) : bool :=
  ((65 <=? nat_of_ascii c)%nat && (nat_of_ascii c <=? 90)%nat)%bool.
Definition is_lower (c : ascii) : bool :=
  ((97 <=? nat_of_ascii c)%nat && (nat_of_ascii c <=? 122)%nat)%bool.

(** ASCII lower-casing of one character, as the regex engine does it
    under [re.IGNORECASE]. *)
Definition lower (c : ascii) : ascii :=
  if is_upper c then ascii_of_nat (nat_of_ascii c + 32) else c.

End Str.

(** ** Regular expressions

    The fragment of [re] the module uses: character sets with ranges,
    concatenation, alternation, greedy star, and the never-matching [a^].
    Matching is by derivatives. *)

Module Re.

Inductive regex : Type :=
| Void                                   (* never matches, as [a^] *)
| Eps
| Cls (ranges : list (ascii * ascii))    (* [lo-hi...]; a single char is lo = hi *)
| Cat (r1 r2 : regex)
| Alt (r1 r2 : regex)
| Star (r : regex).

Definition in_range (c : ascii) (r : ascii * ascii) : bool :=
  ((nat_of_ascii (fst r) <=? nat_of_ascii c)%nat
   && (nat_of_ascii c <=? nat_of_ascii (snd r))%nat)%bool.

(** Membership of [c] in a set.  With [ic] ([re.IGNORECASE]) both the set
    and the subject character are lower-cased. *)
Definition in_class (ic : bool) (ranges : list (ascii * ascii)) (c : ascii) : bool :=
  if ic
  then existsb (fun r => in_range (Str.lower c) (Str.lower (fst r), Str.lower (snd r))) ranges
  else existsb (in_range c) ranges.

Fixpoint nullable (r : regex) : bool :=
  match r with
  | Void => false
  | Eps => true
  | Cls _ => false
  | Cat r1 r2 => nullable r1 && nullable r2
  | Alt r1 r2 => nullable r1 || nullable r2
  | Star _ => true
  end.

Fixpoint deriv (ic : bool) (c : ascii) (r : regex) : regex :=
  match r with
  | Void => Void
  | Eps => Void
  | Cls rs => if in_class ic rs c then Eps else Void
  | Cat r1 r2 =>
      if nullable r1
      then Alt (Cat (deriv ic c r1) r2) (deriv ic c r2)
      else Cat (deriv ic c r1) r2
  | Alt r1 r2 => Alt (deriv ic c r1) (deriv ic c r2)
  | Star r1 => Cat (deriv ic c r1) (Star r1)
  end.

(** The whole of [s] is in the language of [r]. *)
Fixpoint fullmatch (ic : bool) (r : regex) (s : string) : bool :=
  match s with
  | EmptyString => nullable r
  | String c s' => fullmatch ic (deriv ic c r) s'
  end.

(** [re.compile(R + '$').match(s)]: some prefix of [s] is in the language
    of [r] and ends at the end of [s] or just before a final newline. *)
Fixpoint match_to_end (ic : bool) (r : regex) (s : string) : bool :=
  match s with
  | EmptyString => nullable r
  | String c s' =>
      (nullable r && String.eqb s (Str.chr "010"%char))
      || match_to_end ic (deriv ic c r) s'
  end.

(** Length of the longest prefix of [s] in the language of [r]: what a
    greedy pattern with nothing after it consumes. *)
Fixpoint longest (ic : bool) (r : regex) (s : string) : option nat :=
  match s with
  | EmptyString => if nullable r then Some 0 else None
  | String c s' =>
      match longest ic (deriv ic c r) s' with
      | Some n => Some (S n)
      | None => if nullable r then Some 0 else None
      end
  end.

(** [R] followed by the literal [close]: the length of the longest prefix
    of [s] in the language of [r] that is followed by [close]. *)
Fixpoint before (ic : bool) (r : regex) (close : ascii) (s : string) : option nat :=
  match s with
  | EmptyString => None
  | String c s' =>
      match before ic (deriv ic c r) close s' with
      | Some n => Some (S n)
      | None => if nullable r && Ascii.eqb c close then Some 0 else None
      end
  end.

Definition range (lo hi : ascii) : ascii * ascii := (lo, hi).
Definition one (c : ascii) : ascii * ascii := (c, c).

End Re.

(** [ATTR_REG_STR]: a group of one character of [_a-z] and any number of
    [_a-z0-9], then any number of groups of one character of [._a-z] and
    any number of [_a-z0-9]. *)
Definition ATTR_REG_STR : Re.regex :=
  Re.Cat
    (Re.Cat (Re.Cls [Re.one "_"; Re.range "a" "z"])
            (Re.Star (Re.Cls [Re.one "_"; Re.range "a" "z"; Re.range "0" "9"])))
    (Re.Star
       (Re.Cat (Re.Cls [Re.one "."; Re.one "_"; Re.range "a" "z"])
               (Re.Star (Re.Cls [Re.one "_"; Re.range "a" "z"; Re.range "0" "9"])))).

(** The identifier pattern of [string.Template]: one character of [_a-z]
    and any number of [_a-z0-9]. *)
Definition idpattern : Re.regex :=
  Re.Cat (Re.Cls [Re.one "_"; Re.range "a" "z"])
         (Re.Star (Re.Cls [Re.one "_"; Re.range "a" "z"; Re.range "0" "9"])).

Definition DEFAULT_ENV_SEP_MAP : gmap string string :=
  {[ "CMAKE_MODULE_PATH" := ";" ]}.

(** ** Python values

    The values a DSL script hands to the namespace: strings, lists of
    strings, objects with an attribute table ([shown] is what [str()]
    renders), the recorder's bound methods and the handles of the
    environment view. *)

#[warnings="-register-all"]
Inductive pyval : Type :=
| PStr (s : string)
| PList (l : list string)
| PObj (shown : string) (attrs : list (string * pyval))
| PMethod (name : string)
| PEnvVar (name : string).

(** The part of the object protocol the module relies on. *)
Class PyObject (V : Type) : Type := {
  py_getattr : V -> string -> option V;   (* [getattr(v, name)]; [None] is AttributeError *)
  py_basestring : V -> option string;     (* [Some s] when [isinstance(v, basestring)] *)
  py_format : V -> string                 (* ['%s' % (v,)] *)
}.

Module Repr.

Definition hexdigit (n : nat) : ascii :=
  if (n <? 10)%nat then ascii_of_nat (48 + n) else ascii_of_nat (87 + n).

(** [repr] of one character of a [str] quoted with [quote]. *)
Definition repr_char (quote c : ascii) : string :=
  if (Ascii.eqb c quote || Ascii.eqb c "\"%char)%bool then String "\"%char (Str.chr c)
  else if Ascii.eqb c "009"%char then "\t"
  else if Ascii.eqb c "010"%char then "\n"
  else if Ascii.eqb c "013"%char then "\r"
  else if ((nat_of_ascii c <? 32)%nat || (127 <=? nat_of_ascii c)%nat)%bool
       then "\x" +:+ Str.chr (hexdigit (nat_of_ascii c / 16))
                 +:+ Str.chr (hexdigit (nat_of_ascii c mod 16))
  else Str.chr c.

Fixpoint repr_chars (quote : ascii) (s : string) : string :=
  match s with
  | EmptyString => EmptyString
  | String c s' => repr_char quote c +:+ repr_chars quote s'
  end.

(** [repr(s)] of a [str]: single quotes, unless the string has a single
    quote and no double quote. *)
Definition repr_str (s : string) : string :=
  let quote : ascii :=
    if (Str.contains "'"%char s && negb (Str.contains "034"%char s))%bool
    then "034"%char else "'"%char in
  Str.chr quote +:+ repr_chars quote s +:+ Str.chr quote.

Definition repr_list (l : list string) : string :=
  "[" +:+ Str.join ", " (map repr_str l) +:+ "]".

End Repr.

Fixpoint assoc (name : string) (attrs : list (string * pyval)) : option pyval :=
  match attrs with
  | [] => None
  | (n, v) :: rest => if String.eqb n name then Some v else assoc name rest
  end.

(** Attribute tables are those of [PObj]; the built-in attributes of the
    other values are not represented.  The rendering of a method or a handle
    leaves out the object address. *)
Global Instance pyval_object : PyObject pyval := {
  py_getattr v name :=
    match v with
    | PObj _ attrs => assoc name attrs
    | _ => None
    end;
  py_basestring v :=
    match v with
    | PStr s => Some s
    | _ => None
    end;
  py_format v :=
    match v with
    | PStr s => s
    | PList l => Repr.repr_list l
    | PObj shown _ => shown
    | PMethod name => "<bound method CommandRecorder." +:+ name +:+ ">"
    | PEnvVar _ => "<rez.rex.EnvironmentVariable object>"
    end
}.

(** ** AttrDict *)

Section AttrDict.
Context {V : Type} `{PyObject V}.

(** [AttrDict.ATTR_REG.match(key)], the pattern being [ATTR_REG_STR + '$']
    compiled with [re.IGNORECASE]. *)
Definition ATTR_REG_match (key : string) : bool :=
  Re.match_to_end true ATTR_REG_STR key.

(** The [while parts] loop of [__getitem__].  [rparts] is [parts]
    reversed, so that [parts.pop()] is the head; [attrs] collects the
    popped segments in the order of the pops. *)
Fixpoint probe (data : gmap string V) (rparts attrs : list string)
  : option (V * list string) :=
  match rparts with
  | [] => None
  | p :: rest =>
      match data !! Str.join "." (rev rparts) with
      | Some found => Some (found, attrs)
      | None => probe data rest (attrs ++ [p])
      end
  end.

(** The [for attr in attrs] loop of [__getitem__]. *)
Fixpoint walk (key : string) (res : V) (attrs : list string) : result V :=
  match attrs with
  | [] => Ok res
  | attr :: rest =>
      match py_getattr res attr with
      | Some res' => walk key res' rest
      | None => Raise (KeyError key)
      end
  end.

Definition AttrDict___getitem__ (data : gmap string V) (key : string) : result V :=
  match probe data (rev (Str.split_go "." 0 EmptyString key)) [] with
  | Some (found, attrs) => walk key found attrs
  | None => Raise (KeyError key)
  end.

Definition AttrDict___setitem__ (data : gmap string V) (key value : V)
  : result (gmap string V) :=
  match py_basestring key with
  | None => Raise (TypeError "key must be a string")
  | Some k =>
      if ATTR_REG_match k
      then Ok (<[k := value]> data)
      else Raise (ValueError "key must be of the format 'node.attr1.attr2'")
  end.

End AttrDict.

(** ** string.Template and CustomExpand *)

Module Template.

(** A match object: the whole match and the four named groups. *)
Record match_obj : Type := {
  group0 : string;
  escaped : option string;
  named : option string;
  braced : option string;
  invalid : option string
}.

(** The helper [convert] of [safe_substitute]. *)
Definition convert (delimiter : string) (mapping : string -> result string)
    (mo : match_obj) : result string :=
  let name :=
    match named mo with
    | Some (String _ _ as n) => Some n
    | _ => braced mo
    end in
  match name with
  | Some n =>
      match mapping n with
      | Ok v => Ok v
      | Raise (KeyError _) => Ok (group0 mo)
      | Raise e => Raise e
      end
  | None =>
      match escaped mo, invalid mo with
      | Some _, _ => Ok delimiter
      | None, Some _ => Ok (group0 mo)
      | None, None => Raise (ValueError "Unrecognized named group in pattern")
      end
  end.

(** [pattern.sub(convert, template)]: the matches are found left to right
    and do not overlap.  [pat prev s] is the match of the pattern at the
    front of [s], [prev] being the character before it; [skip] counts the
    characters of the last match still to be passed over.  A match of
    either pattern has at least one character. *)
Fixpoint sub (pat : option ascii -> string -> option match_obj)
    (conv : match_obj -> result string)
    (prev : option ascii) (skip : nat) (s : string) : result string :=
  match s with
  | EmptyString => Ok EmptyString
  | String c s' =>
      match skip with
      | S k => sub pat conv (Some c) k s'
      | O =>
          match pat prev s with
          | Some mo =>
              r ← conv mo;
              rest ← sub pat conv (Some c) (String.length (group0 mo) - 1) s';
              Ok (r +:+ rest)
          | None =>
              rest ← sub pat conv (Some c) 0 s';
              Ok (String c rest)
          end
      end
  end.

Definition safe_substitute (pat : option ascii -> string -> option match_obj)
    (delimiter : string) (mapping : string -> result string)
    (template : string) : result string :=
  sub pat (convert delimiter mapping) None 0 template.

(** The pattern of [string.Template] with delimiter [$], compiled with
    [re.IGNORECASE]: after the delimiter, in this order, a second
    delimiter, an identifier, a braced identifier, or nothing. *)
Definition EnvExpand_pattern (prev : option ascii) (s : string) : option match_obj :=
  match s with
  | String "$" rest =>
      let bad := {| group0 := "$"; escaped := None; named := None;
                    braced := None; invalid := Some EmptyString |} in
      match rest with
      | String "$" _ =>
          Some {| group0 := "$$"; escaped := Some "$"; named := None;
                  braced := None; invalid := None |}
      | _ =>
          match Re.longest true idpattern rest with
          | Some n =>
              Some {| group0 := "$" +:+ Str.take n rest; escaped := None;
                      named := Some (Str.take n rest);
                      braced := None; invalid := None |}
          | None =>
              match rest with
              | String "{" inner =>
                  match Re.before true idpattern "}" inner with
                  | Some n =>
                      Some {| group0 := "${" +:+ Str.take n inner +:+ "}";
                              escaped := None; named := None;
                              braced := Some (Str.take n inner);
                              invalid := None |}
                  | None => Some bad
                  end
              | _ => Some bad
              end
          end
      end
  | _ => None
  end.

(** [CustomExpand.pattern]: a negative look-behind for [$], then the
    alternatives; [escaped], [named] and [invalid] are [a^], which never
    matches, so only a braced [ATTR_REG_STR] is left. *)
Definition CustomExpand_pattern (prev : option ascii) (s : string) : option match_obj :=
  match prev with
  | Some "$"%char => None
  | _ =>
      match s with
      | String "{" inner =>
          match Re.before true ATTR_REG_STR "}" inner with
          | Some n =>
              Some {| group0 := "{" +:+ Str.take n inner +:+ "}";
                      escaped := None; named := None;
                      braced := Some (Str.take n inner);
                      invalid := None |}
          | None => None
          end
      | _ => None
      end
  end.

End Template.

(** [EnvExpand(value).safe_substitute] over the environment mapping. *)
Definition EnvExpand_safe_substitute (environ : gmap string string) (value : string)
  : result string :=
  Template.safe_substitute Template.EnvExpand_pattern "$"
    (fun name => match environ !! name with
                 | Some v => Ok v
                 | None => Raise (KeyError name)
                 end)
    value.

(** [CustomExpand(value).safe_substitute(custom)], [custom] being an
    [AttrDict] over [data]. *)
Definition CustomExpand_safe_substitute `{PyObject V} (data : gmap string V)
    (value : string) : result string :=
  Template.safe_substitute Template.CustomExpand_pattern "!"
    (fun name => v ← AttrDict___getitem__ data name; Ok (py_format v))
    value.

(** ** Commands and the recorder *)

(** One constructor per command class; [Command] is the base class itself,
    which [CommandRecorder.command] instantiates. *)
Inductive command : Type :=
| Setenv (key : string) (value : pyval)
| Unsetenv (key : string)
| Prependenv (key : string) (value : pyval)
| Appendenv (key : string) (value : pyval)
| Alias (key : string) (value : pyval)
| Info (value : pyval)
| Error (value : pyval)
| Command (value : pyval)
| Comment (value : pyval)
| Source (value : pyval).

(** [cmd.name]: the lower-cased class name. *)
Definition name (cmd : command) : string :=
  match cmd with
  | Setenv _ _ => "setenv"
  | Unsetenv _ => "unsetenv"
  | Prependenv _ _ => "prependenv"
  | Appendenv _ _ => "appendenv"
  | Alias _ _ => "alias"
  | Info _ => "info"
  | Error _ => "error"
  | Command _ => "command"
  | Comment _ => "comment"
  | Source _ => "source"
  end.

Fixpoint map_result {A B : Type} (f : A -> result B) (l : list A) : result (list B) :=
  match l with
  | [] => Ok []
  | x :: rest => y ← f x; ys ← map_result f rest; Ok (y :: ys)
  end.

(** The expansion callback is a bound method of the routing namespace: it
    reads the namespace's variables as they are when it is called, so the
    recorder's methods take that dictionary as [store]. *)
Record CommandRecorder : Type := {
  commands : list command;
  _expandfunc : option (gmap string pyval -> string -> result string)
}.

Definition CommandRecorder___init__ : CommandRecorder :=
  {| commands := []; _expandfunc := None |}.

Definition append_command (self : CommandRecorder) (cmd : command) : CommandRecorder :=
  {| commands := commands self ++ [cmd]; _expandfunc := _expandfunc self |}.

Definition reset_commands (self : CommandRecorder) : CommandRecorder :=
  {| commands := []; _expandfunc := _expandfunc self |}.

Definition get_commands (self : CommandRecorder) : list command := commands self.

Definition CommandRecorder__expand (store : gmap string pyval)
    (self : CommandRecorder) (value : pyval) : result pyval :=
  match _expandfunc self with
  | Some f =>
      match value with
      | PStr s => s' ← f store s; Ok (PStr s')
      | PList l => l' ← map_result (f store) l; Ok (PList l')
      | _ => Ok value
      end
  | None => Ok value
  end.

Section RecorderMethods.
Variable store : gmap string pyval.
Variable self : CommandRecorder.

Definition record2 (mk : string -> pyval -> command) (key : string) (value : pyval)
  : result CommandRecorder :=
  v ← CommandRecorder__expand store self value; Ok (append_command self (mk key v)).

Definition record1 (mk : pyval -> command) (value : pyval) : result CommandRecorder :=
  v ← CommandRecorder__expand store self value; Ok (append_command self (mk v)).

Definition setenv := record2 Setenv.
Definition unsetenv (key : string) : result CommandRecorder :=
  Ok (append_command self (Unsetenv key)).
Definition prependenv := record2 Prependenv.
Definition appendenv := record2 Appendenv.
Definition alias := record2 Alias.
Definition info := record1 Info.
Definition error := record1 Error.
Definition command_ := record1 Command.
Definition comment := record1 Comment.
Definition source := record1 Source.

(** A call of the bound method [meth] from the DSL.  Keys are strings;
    a wrong number of arguments is a [TypeError]. *)
Definition call_recorder (meth : string) (args : list pyval) : result CommandRecorder :=
  match meth, args with
  | "setenv", [PStr key; value] => setenv key value
  | "unsetenv", [PStr key] => unsetenv key
  | "prependenv", [PStr key; value] => prependenv key value
  | "appendenv", [PStr key; value] => appendenv key value
  | "alias", [PStr key; value] => alias key value
  | "info", [value] => info value
  | "error", [value] => error value
  | "command", [value] => command_ value
  | "comment", [value] => comment value
  | "source", [value] => source value
  | "reset_commands", [] => Ok (reset_commands self)
  | "get_commands", [] => Ok self
  | _, _ => Raise (TypeError "arguments")
  end.

End RecorderMethods.

(** ** The environment view and the routing namespace *)

(** The three objects are created together and share the recorder; [vars]
    is at once the plain variable scope and the [data] of the custom
    [AttrDict] (the source assigns the same dictionary to both), and
    [_var_cache] is the handle cache of the [EnvironDict]. *)
Record RoutingDict : Type := {
  command_recorder : CommandRecorder;
  _var_cache : gset string;
  vars : gmap string pyval
}.

(** [RoutingDict.ALL_CAPS]: one character of [_A-Z], any number of
    [_A-Z0-9], then the end; case-sensitive. *)
Definition ALL_CAPS : Re.regex :=
  Re.Cat (Re.Cls [Re.one "_"; Re.range "A" "Z"])
         (Re.Star (Re.Cls [Re.one "_"; Re.range "A" "Z"; Re.range "0" "9"])).

Definition ALL_CAPS_match (key : string) : bool := Re.match_to_end false ALL_CAPS key.

(** [RoutingDict.expand], reading the custom namespace [vars]. *)
Definition expand (vars : gmap string pyval) (value : string) : result string :=
  CustomExpand_safe_substitute vars value.

(** The public methods of the recorder, as [inspect.getmembers] lists them. *)
Definition recorder_methods : list string :=
  ["alias"; "appendenv"; "command"; "comment"; "error"; "get_commands"; "info";
   "prependenv"; "reset_commands"; "setenv"; "source"; "unsetenv"].

Definition RoutingDict___init__ (vars : gmap string pyval) : RoutingDict :=
  {| command_recorder := {| commands := []; _expandfunc := Some expand |};
     _var_cache := ∅;
     vars := foldl (fun m cmd => <[cmd := PMethod cmd]> m) vars recorder_methods |}.

Definition with_recorder (g : RoutingDict) (rec : CommandRecorder) : RoutingDict :=
  {| command_recorder := rec; _var_cache := _var_cache g; vars := vars g |}.

(** [EnvironDict.__getitem__]: the handle of [key], cached on first use. *)
Definition EnvironDict___getitem__ (g : RoutingDict) (key : string) : RoutingDict * pyval :=
  ({| command_recorder := command_recorder g;
      _var_cache := {[key]} ∪ _var_cache g;
      vars := vars g |}, PEnvVar key).

(** The methods of an [EnvironmentVariable] handle. *)
Definition EnvironmentVariable_call (g : RoutingDict) (name meth : string)
    (args : list pyval) : result RoutingDict :=
  match meth, args with
  | "set", [value] =>
      rec ← setenv (vars g) (command_recorder g) name value; Ok (with_recorder g rec)
  | "prepend", [value] =>
      rec ← prependenv (vars g) (command_recorder g) name value; Ok (with_recorder g rec)
  | "append", [value] =>
      rec ← appendenv (vars g) (command_recorder g) name value; Ok (with_recorder g rec)
  | "unset", [] =>
      rec ← unsetenv (command_recorder g) name; Ok (with_recorder g rec)
  | "set", _ | "prepend", _ | "append", _ | "unset", _ => Raise (TypeError "arguments")
  | _, _ => Raise (AttributeError meth)
  end.

(** [EnvironDict.__setitem__]: [self[key].set(value)]. *)
Definition EnvironDict___setitem__ (g : RoutingDict) (key : string) (value : pyval)
  : result RoutingDict :=
  let '(g1, _) := EnvironDict___getitem__ g key in
  EnvironmentVariable_call g1 key "set" [value].

Definition RoutingDict___getitem__ (g : RoutingDict) (key : string)
  : result (RoutingDict * pyval) :=
  if ALL_CAPS_match key
  then Ok (EnvironDict___getitem__ g key)
  else match vars g !! key with
       | Some v => Ok (g, v)
       | None => Raise (KeyError key)
       end.

Definition RoutingDict___setitem__ (g : RoutingDict) (key : string) (value : pyval)
  : result RoutingDict :=
  if ALL_CAPS_match key
  then EnvironDict___setitem__ g key value
  else
    value' ← match py_basestring value with
             | Some s => s' ← expand (vars g) s; Ok (PStr s')
             | None => Ok value
             end;
    Ok {| command_recorder := command_recorder g;
          _var_cache := _var_cache g;
          vars := <[key := value']> (vars g) |}.

(** The statements of a DSL script that reach the namespace: an assignment
    [NAME = value] is a [__setitem__]; the name of a call is looked up with
    [__getitem__].  Calling anything but a recorder method or a handle
    method is not represented and is given as a [TypeError]. *)
Inductive stmt : Type :=
| Assign (target : string) (value : pyval)
| Call (func : string) (args : list pyval)
| MethodCall (target meth : string) (args : list pyval).

Definition exec_stmt (g : RoutingDict) (st : stmt) : result RoutingDict :=
  match st with
  | Assign target value => RoutingDict___setitem__ g target value
  | Call func args =>
      '(g1, f) ← RoutingDict___getitem__ g func;
      match f with
      | PMethod meth =>
          rec ← call_recorder (vars g1) (command_recorder g1) meth args;
          Ok (with_recorder g1 rec)
      | _ => Raise (TypeError "object is not callable")
      end
  | MethodCall target meth args =>
      '(g1, obj) ← RoutingDict___getitem__ g target;
      match obj with
      | PEnvVar name => EnvironmentVariable_call g1 name meth args
      | _ =>
          match py_getattr obj meth with
          | None => Raise (AttributeError meth)
          | Some _ => Raise (TypeError "object is not callable")
          end
      end
  end.

(** [exec code in g] for a straight-line script. *)
Fixpoint exec (g : RoutingDict) (code : list stmt) : result RoutingDict :=
  match code with
  | [] => Ok g
  | st :: rest => g1 ← exec_stmt g st; exec g1 rest
  end.

(** ** textwrap.dedent *)

Module Textwrap.

Definition nl : string := Str.chr "010".

Definition blank (c : ascii) : bool := (Ascii.eqb c " " || Ascii.eqb c "009")%bool.

Fixpoint all_blank (s : string) : bool :=
  match s with
  | EmptyString => true
  | String c s' => blank c && all_blank s'
  end.

(** The leading run of spaces and tabs of a line. *)
Fixpoint indent_of (s : string) : string :=
  match s with
  | String c s' => if blank c then String c (indent_of s') else EmptyString
  | EmptyString => EmptyString
  end.

Fixpoint common_prefix (a b : string) : string :=
  match a, b with
  | String x a', String y b' =>
      if Ascii.eqb x y then String x (common_prefix a' b') else EmptyString
  | _, _ => EmptyString
  end.

(** One round of the loop over the indents. *)
Definition narrow (margin : option string) (indent : string) : option string :=
  match margin with
  | None => Some indent
  | Some m =>
      if Str.startswith m indent then Some m
      else if Str.startswith indent m then Some indent
      else Some (common_prefix m indent)
  end.

Definition strip_margin (margin line : string) : string :=
  if Str.startswith margin line then Str.drop (String.length margin) line else line.

Definition dedent (text : string) : string :=
  let lines := map (fun l => if all_blank l then EmptyString else l)
                   (Str.split_go nl 0 EmptyString text) in
  let indents := map indent_of (filter (fun l => negb (String.eqb l EmptyString)) lines) in
  match foldl narrow None indents with
  | Some (String _ _ as margin) => Str.join nl (map (strip_margin margin) lines)
  | _ => Str.join nl lines
  end.

End Textwrap.

(** ** Interpreters *)

Inductive interpreter_class : Type := SH | CSH | Python | WinShell.

(** An interpreter object.  An attribute the constructor of the class never
    assigns is [None]; reading it is an [AttributeError]. *)
Record interpreter : Type := {
  cls : interpreter_class;
  _respect_parent_env : option bool;
  _env_sep_map : option (gmap string string);
  _set_env_vars : option (gset string);
  _environ : option (gmap string string);
  set_global : option bool;
  stdout : list string;
  stderr : list string
}.

Definition attr {A : Type} (name : string) (field : option A) : result A :=
  match field with
  | Some a => Ok a
  | None => Raise (AttributeError name)
  end.

Definition CommandInterpreter___init__ (c : interpreter_class)
    (respect_parent_env : bool) (env_sep_map : option (gmap string string)) : interpreter :=
  {| cls := c;
     _respect_parent_env := Some respect_parent_env;
     _env_sep_map := Some (default ∅ env_sep_map);
     _set_env_vars := Some ∅;
     _environ := None; set_global := None; stdout := []; stderr := [] |}.

(** [Python.__init__]: [override_parent_env] is handed to the base
    constructor as [respect_parent_env]. *)
Definition Python___init__ (override_parent_env : bool) (environ : gmap string string)
  : interpreter :=
  {| cls := Python;
     _respect_parent_env := Some override_parent_env;
     _env_sep_map := Some ∅;
     _set_env_vars := Some ∅;
     _environ := Some environ; set_global := None; stdout := []; stderr := [] |}.

(** [WinShell.__init__] assigns [set_global] and does not call the base
    constructor. *)
Definition WinShell___init__ (set_global : bool) : interpreter :=
  {| cls := WinShell;
     _respect_parent_env := None; _env_sep_map := None; _set_env_vars := None;
     _environ := None; set_global := Some set_global; stdout := []; stderr := [] |}.

Definition _reset (self : interpreter) : interpreter :=
  {| cls := cls self; _respect_parent_env := _respect_parent_env self;
     _env_sep_map := _env_sep_map self; _set_env_vars := Some ∅;
     _environ := _environ self; set_global := set_global self;
     stdout := stdout self; stderr := stderr self |}.

Definition with_set_env_vars (self : interpreter) (s : gset string) : interpreter :=
  {| cls := cls self; _respect_parent_env := _respect_parent_env self;
     _env_sep_map := _env_sep_map self; _set_env_vars := Some s;
     _environ := _environ self; set_global := set_global self;
     stdout := stdout self; stderr := stderr self |}.

Definition with_environ (self : interpreter) (e : gmap string string) : interpreter :=
  {| cls := cls self; _respect_parent_env := _respect_parent_env self;
     _env_sep_map := _env_sep_map self; _set_env_vars := _set_env_vars self;
     _environ := Some e; set_global := set_global self;
     stdout := stdout self; stderr := stderr self |}.

Definition print_stdout (self : interpreter) (line : string) : interpreter :=
  {| cls := cls self; _respect_parent_env := _respect_parent_env self;
     _env_sep_map := _env_sep_map self; _set_env_vars := _set_env_vars self;
     _environ := _environ self; set_global := set_global self;
     stdout := stdout self ++ [line]; stderr := stderr self |}.

Definition print_stderr (self : interpreter) (line : string) : interpreter :=
  {| cls := cls self; _respect_parent_env := _respect_parent_env self;
     _env_sep_map := _env_sep_map self; _set_env_vars := _set_env_vars self;
     _environ := _environ self; set_global := set_global self;
     stdout := stdout self; stderr := stderr self ++ [line] |}.

Definition dq : string := Str.chr "034".
Definition nl : string := Str.chr "010".
Definition indent12 : string := "            ".
Definition indent16 : string := "                ".

Section Interpreters.
(** [os.pathsep] and [subprocess.list2cmdline] *)
Variable os_pathsep : string.
Variable list2cmdline : list string -> string.

Definition _env_sep (self : interpreter) (name : string) : result string :=
  m ← attr "_env_sep_map" (_env_sep_map self);
  Ok (default os_pathsep (m !! name)).

(** [if isinstance(value, (list, tuple)): value = self._env_sep(key).join(value)] *)
Definition join_value (self : interpreter) (key : string) (value : pyval) : result pyval :=
  match value with
  | PList l => sep ← _env_sep self key; Ok (PStr (Str.join sep l))
  | _ => Ok value
  end.

(** *** SH *)

Definition SH_setenv (self : interpreter) (key : string) (value : pyval) : result string :=
  value ← join_value self key value;
  Ok ("export " +:+ key +:+ "=" +:+ dq +:+ py_format value +:+ dq).

Definition SH_unsetenv (key : string) : string := "unset " +:+ key.

(** [setenv] is the one of the class of [self]. *)
Definition SH_prependenv (setenv : interpreter -> string -> pyval -> result string)
    (self : interpreter) (key : string) (value : pyval) : result string :=
  value ← join_value self key value;
  vars ← attr "_set_env_vars" (_set_env_vars self);
  if bool_decide (key ∈ vars)
  then sep ← _env_sep self key;
       Ok ("export " +:+ key +:+ "=" +:+ dq +:+ py_format value +:+ sep +:+ "$" +:+ key +:+ dq)
  else
    respect ← attr "_respect_parent_env" (_respect_parent_env self);
    if negb respect : bool then setenv self key value
    else
      sep ← _env_sep self key;
      Ok (Textwrap.dedent
            (indent12 +:+ "if [[ $" +:+ key +:+ " ]]; then" +:+ nl
             +:+ indent16 +:+ "export " +:+ key +:+ "=" +:+ dq +:+ py_format value +:+ dq +:+ nl
             +:+ indent12 +:+ "else" +:+ nl
             +:+ indent16 +:+ "export " +:+ key +:+ "=" +:+ dq +:+ py_format value +:+ sep
                          +:+ "$" +:+ key +:+ dq +:+ nl
             +:+ indent12 +:+ "fi")).

Definition SH_appendenv (setenv : interpreter -> string -> pyval -> result string)
    (self : interpreter) (key : string) (value : pyval) : result string :=
  value ← join_value self key value;
  vars ← attr "_set_env_vars" (_set_env_vars self);
  if bool_decide (key ∈ vars)
  then sep ← _env_sep self key;
       Ok ("export " +:+ key +:+ "=" +:+ dq +:+ "$" +:+ key +:+ sep +:+ py_format value +:+ dq)
  else
    respect ← attr "_respect_parent_env" (_respect_parent_env self);
    if negb respect : bool then setenv self key value
    else
      sep ← _env_sep self key;
      Ok (Textwrap.dedent
            (indent12 +:+ "if [[ $" +:+ key +:+ " ]]; then" +:+ nl
             +:+ indent16 +:+ "export " +:+ key +:+ "=" +:+ dq +:+ py_format value +:+ dq +:+ nl
             +:+ indent12 +:+ "else" +:+ nl
             +:+ indent16 +:+ "export " +:+ key +:+ "=" +:+ dq +:+ "$" +:+ key +:+ sep
                          +:+ py_format value +:+ dq +:+ nl
             +:+ indent12 +:+ "fi")).

(** The format string of [SH.alias] has the replacement field
    [{ {value}; }], whose name [ {value}; ] is no keyword of the call:
    [str.format] raises [KeyError]. *)
Definition SH_alias (key : string) (value : pyval) : result string :=
  Raise (KeyError " {value}; ").

Definition SH_info (value : pyval) : string := "echo " +:+ dq +:+ py_format value +:+ dq.
Definition SH_error (value : pyval) : string :=
  "echo " +:+ dq +:+ py_format value +:+ dq +:+ " 1>&2".
Definition SH_comment (value : pyval) : string := "# " +:+ py_format value.
Definition SH_source (value : pyval) : string := "source " +:+ dq +:+ py_format value +:+ dq.

(** *** CSH *)

Definition CSH_setenv (self : interpreter) (key : string) (value : pyval) : result string :=
  value ← join_value self key value;
  Ok ("setenv " +:+ key +:+ " " +:+ dq +:+ py_format value +:+ dq).

Definition CSH_unsetenv (key : string) : string := "unsetenv " +:+ key.

Definition CSH_prependenv (self : interpreter) (key : string) (value : pyval) : result string :=
  value ← join_value self key value;
  vars ← attr "_set_env_vars" (_set_env_vars self);
  if bool_decide (key ∈ vars)
  then sep ← _env_sep self key;
       Ok ("setenv " +:+ key +:+ "=" +:+ dq +:+ py_format value +:+ sep +:+ "$" +:+ key +:+ dq)
  else
    respect ← attr "_respect_parent_env" (_respect_parent_env self);
    if negb respect : bool then CSH_setenv self key value
    else
      sep ← _env_sep self key;
      Ok (Textwrap.dedent
            (indent12 +:+ "if ( ! $?" +:+ key +:+ " ) then" +:+ nl
             +:+ indent16 +:+ "setenv " +:+ key +:+ " " +:+ dq +:+ py_format value +:+ dq +:+ nl
             +:+ indent12 +:+ "else" +:+ nl
             +:+ indent16 +:+ "setenv " +:+ key +:+ " " +:+ dq +:+ py_format value +:+ sep
                          +:+ "$" +:+ key +:+ dq +:+ nl
             +:+ indent12 +:+ "endif")).

Definition CSH_appendenv (self : interpreter) (key : string) (value : pyval) : result string :=
  value ← join_value self key value;
  vars ← attr "_set_env_vars" (_set_env_vars self);
  if bool_decide (key ∈ vars)
  then sep ← _env_sep self key;
       Ok ("setenv " +:+ key +:+ "=" +:+ dq +:+ "$" +:+ key +:+ sep +:+ py_format value +:+ dq)
  else
    respect ← attr "_respect_parent_env" (_respect_parent_env self);
    if negb respect : bool then CSH_setenv self key value
    else
      sep ← _env_sep self key;
      Ok (Textwrap.dedent
            (indent12 +:+ "if ( ! $?" +:+ key +:+ " ) then" +:+ nl
             +:+ indent16 +:+ "setenv " +:+ key +:+ " " +:+ dq +:+ py_format value +:+ dq +:+ nl
             +:+ indent12 +:+ "else" +:+ nl
             +:+ indent16 +:+ "setenv " +:+ key +:+ " " +:+ dq +:+ "$" +:+ key +:+ sep
                          +:+ py_format value +:+ dq +:+ nl
             +:+ indent12 +:+ "endif")).

Definition CSH_alias (key : string) (value : pyval) : string :=
  "alias " +:+ key +:+ " '" +:+ py_format value +:+ "';".

(** *** Python: execution against an environment mapping *)

(** [EnvExpand(value).safe_substitute]; the template has to be a string. *)
Definition Python__expand (self : interpreter) (value : pyval) : result string :=
  environ ← attr "_environ" (_environ self);
  match value with
  | PStr s => EnvExpand_safe_substitute environ s
  | _ => Raise (TypeError "expected string or buffer")
  end.

Definition Python__get_env_list (self : interpreter) (key : string) : result (list string) :=
  environ ← attr "_environ" (_environ self);
  match environ !! key with
  | None => Raise (KeyError key)
  | Some v => sep ← _env_sep self key; Str.split sep v
  end.

Definition Python__set_env_list (self : interpreter) (key : string) (values : list string)
  : result interpreter :=
  environ ← attr "_environ" (_environ self);
  sep ← _env_sep self key;
  Ok (with_environ self (<[key := Str.join sep values]> environ)).

Definition Python_setenv (self : interpreter) (key : string) (value : pyval)
  : result interpreter :=
  value ← join_value self key value;
  environ ← attr "_environ" (_environ self);
  v ← Python__expand self value;
  Ok (with_environ self (<[key := v]> environ)).

(** [self._environ.pop(key)] *)
Definition Python_unsetenv (self : interpreter) (key : string) : result interpreter :=
  environ ← attr "_environ" (_environ self);
  match environ !! key with
  | Some _ => Ok (with_environ self (delete key environ))
  | None => Raise (KeyError key)
  end.

(** The condition of [prependenv] and [appendenv]:
    [key in self._set_env_vars or (self._respect_parent_env and key in self._environ)] *)
Definition Python_extends (self : interpreter) (key : string) : result bool :=
  vars ← attr "_set_env_vars" (_set_env_vars self);
  if bool_decide (key ∈ vars) then Ok true
  else
    respect ← attr "_respect_parent_env" (_respect_parent_env self);
    if respect : bool
    then environ ← attr "_environ" (_environ self); Ok (bool_decide (is_Some (environ !! key)))
    else Ok false.

Definition Python_prependenv (self : interpreter) (key : string) (value : pyval)
  : result interpreter :=
  value ← join_value self key value;
  v ← Python__expand self value;
  extends ← Python_extends self key;
  if extends : bool
  then parts ← Python__get_env_list self key;
       Python__set_env_list self key (v :: parts)
  else environ ← attr "_environ" (_environ self);
       Ok (with_environ self (<[key := v]> environ)).

Definition Python_appendenv (self : interpreter) (key : string) (value : pyval)
  : result interpreter :=
  value ← join_value self key value;
  v ← Python__expand self value;
  extends ← Python_extends self key;
  if extends : bool
  then parts ← Python__get_env_list self key;
       Python__set_env_list self key (parts ++ [v])
  else environ ← attr "_environ" (_environ self);
       Ok (with_environ self (<[key := v]> environ)).

Definition Python_info (self : interpreter) (value : pyval) : result interpreter :=
  v ← Python__expand self value; Ok (print_stdout self v).

Definition Python_error (self : interpreter) (value : pyval) : result interpreter :=
  v ← Python__expand self value; Ok (print_stderr self v).

(** *** WinShell *)

Definition WIN_PATH_VARS : list string := ["PATH"; "LibPath"; "Os2LibPath"].

(** [system_env] and [user_env] are commented out in the class: the
    branch for the path variables stops at the first of them. *)
Definition WinShell_setenv (self : interpreter) (key : string) (value : pyval)
  : result string :=
  value ← match value with
          | PStr s => Ok (Str.replace_char "/" "\\" s)
          | PObj _ attrs =>
              match assoc "replace" attrs with
              | Some _ => Raise (TypeError "object is not callable")
              | None => Raise (AttributeError "replace")
              end
          | _ => Raise (AttributeError "replace")
          end;
  global ← attr "set_global" (set_global self);
  cmd ← (if global : bool
         then if bool_decide (key ∈ WIN_PATH_VARS)
              then Raise (AttributeError "system_env")
              else Ok ("setenv -v " +:+ key +:+ " " +:+ list2cmdline [value] +:+ nl)
         else Ok EmptyString);
  Ok (cmd +:+ "set " +:+ key +:+ "=" +:+ value +:+ nl).

Definition WinShell_unsetenv (self : interpreter) (key : string) : result string :=
  global ← attr "set_global" (set_global self);
  Ok ((if global : bool then "setenv -v " +:+ key +:+ " -delete" +:+ nl else EmptyString)
      +:+ "set " +:+ key +:+ "=" +:+ nl).

(** *** Dispatch and the execution loop *)

Definition returns (self : interpreter) (line : string) : result (interpreter * option string) :=
  Ok (self, Some line).

Definition emits (self : interpreter) (r : result string)
  : result (interpreter * option string) :=
  line ← r; Ok (self, Some line).

Definition mutates (r : result interpreter) : result (interpreter * option string) :=
  self ← r; Ok (self, None).

(** [func = getattr(self, cmd.name); result = func( *cmd.args)]: the method
    of the class of [self], or the one it inherits.  No class has a
    method [command]. *)
Definition call (self : interpreter) (cmd : command) : result (interpreter * option string) :=
  match cls self, cmd with
  | _, Command _ => Raise (AttributeError "command")
  | SH, Setenv k v => emits self (SH_setenv self k v)
  | SH, Unsetenv k => returns self (SH_unsetenv k)
  | SH, Prependenv k v => emits self (SH_prependenv SH_setenv self k v)
  | SH, Appendenv k v => emits self (SH_appendenv SH_setenv self k v)
  | SH, Alias k v => emits self (SH_alias k v)
  | CSH, Setenv k v => emits self (CSH_setenv self k v)
  | CSH, Unsetenv k => returns self (CSH_unsetenv k)
  | CSH, Prependenv k v => emits self (CSH_prependenv self k v)
  | CSH, Appendenv k v => emits self (CSH_appendenv self k v)
  | CSH, Alias k v => returns self (CSH_alias k v)
  | (SH | CSH), Info v => returns self (SH_info v)
  | (SH | CSH), Error v => returns self (SH_error v)
  | (SH | CSH), Comment v => returns self (SH_comment v)
  | (SH | CSH), Source v => returns self (SH_source v)
  | Python, Setenv k v => mutates (Python_setenv self k v)
  | Python, Unsetenv k => mutates (Python_unsetenv self k)
  | Python, Prependenv k v => mutates (Python_prependenv self k v)
  | Python, Appendenv k v => mutates (Python_appendenv self k v)
  | Python, Info v => mutates (Python_info self v)
  | Python, Error v => mutates (Python_error self v)
  | Python, (Alias _ _ | Comment _ | Source _) => Ok (self, None)
  | WinShell, Setenv k v => emits self (WinShell_setenv self k v)
  | WinShell, Unsetenv k => emits self (WinShell_unsetenv self k)
  | WinShell, _ => Raise NotImplementedError
  end.

(** The key of a command whose name is one of [setenv], [prependenv],
    [appendenv]. *)
Definition set_key (cmd : command) : option string :=
  match cmd with
  | Setenv k _ | Prependenv k _ | Appendenv k _ => Some k
  | _ => None
  end.

(** The [for cmd in command_list] loop of [CommandInterpreter._execute]. *)
Fixpoint execute_loop (self : interpreter) (lines : list string)
    (command_list : list command) : result (interpreter * list string) :=
  match command_list with
  | [] => Ok (self, lines)
  | cmd :: rest =>
      '(self1, res) ← call self cmd;
      self2 ← match set_key cmd with
              | Some k =>
                  vars ← attr "_set_env_vars" (_set_env_vars self1);
                  Ok (with_set_env_vars self1 ({[k]} ∪ vars))
              | None => Ok self1
              end;
      execute_loop self2 (match res with Some line => lines ++ [line] | None => lines end) rest
  end.

Definition CommandInterpreter__execute (self : interpreter) (command_list : list command)
  : result (interpreter * string) :=
  '(self1, lines) ← execute_loop self [] command_list;
  Ok (self1, Str.join nl lines).

(** [Python._execute] returns the environment mapping. *)
Definition Python__execute (self : interpreter) (command_list : list command)
  : result (interpreter * gmap string string) :=
  '(self1, _) ← CommandInterpreter__execute self command_list;
  environ ← attr "_environ" (_environ self1);
  Ok (self1, environ).

End Interpreters.


(** ** Path utilities *)

Section PathUtils.
Variable os_pathsep : string.

Definition _split_env (value : string) : result (list string) := Str.split os_pathsep value.

Definition _join_env (values : list string) : string := Str.join os_pathsep values.

End PathUtils.

(** [ntpath.sep] is the backslash and [posixpath.sep] the slash. *)
Definition ntpath_sep : string := Str.chr "092".
Definition posixpath_sep : string := "/".

Definition _ntpath (path : string) : string :=
  Str.join ntpath_sep (Str.split_go posixpath_sep 0 EmptyString path).

Definition _posixpath (path : string) : string :=
  Str.join posixpath_sep (Str.split_go ntpath_sep 0 EmptyString path).

(** ** Choosing an interpreter *)

(** [s.rfind(c)]: the index of the last [c] in [s]. *)
Fixpoint rfind (c : ascii) (s : string) : option nat :=
  match s with
  | EmptyString => None
  | String d s' =>
      match rfind c s' with
      | Some i => Some (S i)
      | None => if Ascii.eqb d c then Some 0 else None
      end
  end.

(** [posixpath.basename]: [i = p.rfind('/') + 1; return p[i:]] *)
Definition basename (p : string) : string :=
  Str.drop (match rfind "/" p with Some i => S i | None => 0 end) p.

Definition shells : gmap string interpreter_class :=
  <["bash" := SH]> (<["sh" := SH]> (<["tcsh" := CSH]> (<["csh" := CSH]>
    (<["-csh" := CSH]> (<["DOS" := WinShell]> ∅))))).

(** The keyword arguments of a call: the three keywords that a constructor
    of a class of [shells] has, each present or not, and the names of the
    keywords that no constructor has. *)
Record kwargs : Type := {
  kw_respect_parent_env : option bool;
  kw_env_sep_map : option (option (gmap string string));
  kw_set_global : option bool;
  kw_others : list string
}.

Definition unexpected_keyword : exn := TypeError "unexpected keyword argument".

Section Construct.
(** [os.environ], the default environment of [Python] *)
Variable os_environ : gmap string string.

(** [cls( **kwargs)]: [SH] and [CSH] inherit the constructor of
    [CommandInterpreter]; the constructor of [Python] has none of the three
    keywords. *)
Definition construct (c : interpreter_class) (kw : kwargs) : result interpreter :=
  match c with
  | SH | CSH =>
      match kw_set_global kw, kw_others kw with
      | None, [] =>
          Ok (CommandInterpreter___init__ c (default false (kw_respect_parent_env kw))
                (default None (kw_env_sep_map kw)))
      | _, _ => Raise unexpected_keyword
      end
  | Python =>
      match kw_respect_parent_env kw, kw_env_sep_map kw, kw_set_global kw, kw_others kw with
      | None, None, None, [] => Ok (Python___init__ true os_environ)
      | _, _, _, _ => Raise unexpected_keyword
      end
  | WinShell =>
      match kw_respect_parent_env kw, kw_env_sep_map kw, kw_others kw with
      | None, None, [] => Ok (WinShell___init__ (default false (kw_set_global kw)))
      | _, _, _ => Raise unexpected_keyword
      end
  end.

End Construct.

Section Interpret.
Variable os_pathsep : string.
Variable list2cmdline : list string -> string.
Variable os_environ : gmap string string.
(** [get_shell_name()], which asks the system for the parent process. *)
Variable get_shell_name : result string.

Definition get_command_interpreter (shell : option string) : result interpreter_class :=
  shell ← match shell with
          | Some s => Ok s
          | None => get_shell_name
          end;
  match shells !! basename shell with
  | Some c => Ok c
  | None => Raise (KeyError (basename shell))
  end.

Definition interpret (command_list : list command) (shell : option string) (kw : kwargs)
  : result string :=
  let kw := {| kw_respect_parent_env := kw_respect_parent_env kw;
               kw_env_sep_map := Some (default (Some DEFAULT_ENV_SEP_MAP) (kw_env_sep_map kw));
               kw_set_global := kw_set_global kw;
               kw_others := kw_others kw |} in
  c ← get_command_interpreter shell;
  self ← construct os_environ c kw;
  '(_, text) ← CommandInterpreter__execute os_pathsep list2cmdline self command_list;
  Ok text.

End Interpret.

Definition no_kwargs : kwargs :=
  {| kw_respect_parent_env := None; kw_env_sep_map := None;
     kw_set_global := None; kw_others := [] |}.

(** ** MachineInfo: the host name *)

(** The attributes that [__init__] assigns for the host name; [None] is
    Python's [None]. *)
Record MachineInfo : Type := {
  _fqdn : option string;
  _name : option string;
  _domain : option string
}.

Definition MachineInfo___init__ : MachineInfo :=
  {| _fqdn := None; _name := None; _domain := None |}.

(** [s.split(c, 1)] *)
Fixpoint split_once (c : ascii) (cur s : string) : list string :=
  match s with
  | EmptyString => [cur]
  | String d s' => if Ascii.eqb d c then [cur; s'] else split_once c (cur +:+ Str.chr d) s'
  end.

Section MachineInfoMethods.
(** [socket.getfqdn()] *)
Variable getfqdn : string.

(** The object after the call, and what the call returns or raises: the
    assignment to [_fqdn] is done when the unpacking fails. *)
Definition _populate_fqdn (self : MachineInfo) : MachineInfo * result unit :=
  match split_once "." EmptyString getfqdn with
  | [n; d] => ({| _fqdn := Some getfqdn; _name := Some n; _domain := Some d |}, Ok tt)
  | _ => ({| _fqdn := Some getfqdn; _name := _name self; _domain := _domain self |},
          Raise (ValueError "need more than 1 value to unpack"))
  end.

(** A property that reads [field] after populating it when it is [None];
    the value read may still be [None]. *)
Definition lazy_fqdn (field : MachineInfo -> option string) (self : MachineInfo)
  : MachineInfo * result (option string) :=
  match field self with
  | Some v => (self, Ok (Some v))
  | None =>
      match _populate_fqdn self with
      | (self1, Ok _) => (self1, Ok (field self1))
      | (self1, Raise e) => (self1, Raise e)
      end
  end.

Definition MachineInfo_name := lazy_fqdn _name.
Definition MachineInfo_domain := lazy_fqdn _domain.

(** The property [fdqn] reads [self._fdqn], which no method assigns. *)
Definition MachineInfo_fdqn (self : MachineInfo) : MachineInfo * result (option string) :=
  (self, Raise (AttributeError "_fdqn")).

End MachineInfoMethods.

(** ** rez_release: the package family of a versioned name *)

(** [pkgname.split('-')[0]]; a split has at least one piece. *)
Definition unversioned (pkgname : string) : string :=
  hd EmptyString (Str.split_go "-" 0 EmptyString pkgname).

(** ** Notions used to state the properties *)

(** Every [{] of the text comes right after a [$]; [prev] is the character
    before the text. *)
Fixpoint dollar_guarded (prev : option ascii) (s : string) : bool :=
  match s with
  | EmptyString => true
  | String c s' =>
      (negb (Ascii.eqb c "{")
       || match prev with Some p => Ascii.eqb p "$" | None => false end)
      && dollar_guarded (Some c) s'
  end.



(** The dotted-identifier grammar in the words of the specification: an
    identifier, then any number of groups made of a dot and an identifier. *)
Definition spec_dotted_identifier : Re.regex :=
  Re.Cat idpattern (Re.Star (Re.Cat (Re.Cls [Re.one "."]) idpattern)).

(** [key] is the key of a [setenv], [prependenv] or [appendenv] of the log. *)
Definition touched (key : string) (log : list command) : Prop :=
  Exists (fun cmd => set_key cmd = Some key) log.

(** The text an emitter prints for a value: a sequence joined with the
    separator of the variable, anything else as [%s] renders it. *)
Definition value_text (sep : string) (value : pyval) : string :=
  match value with
  | PList l => Str.join sep l
  | _ => py_format value
  end.

(** The command with a sequence value replaced by the joined string. *)
Definition join_sequence (sep_of : string -> string) (cmd : command) : command :=
  match cmd with
  | Setenv k (PList v) => Setenv k (PStr (Str.join (sep_of k) v))
  | Prependenv k (PList v) => Prependenv k (PStr (Str.join (sep_of k) v))
  | Appendenv k (PList v) => Appendenv k (PStr (Str.join (sep_of k) v))
  | _ => cmd
  end.

(** What a method leaves as it is: the class and the attributes that the
    base constructor assigns, save the environment mapping and the output. *)
Definition same_config (a b : interpreter) : Prop :=
  cls b = cls a
  ∧ _respect_parent_env b = _respect_parent_env a
  ∧ _env_sep_map b = _env_sep_map a
  ∧ _set_env_vars b = _set_env_vars a
  ∧ set_global b = set_global a.

(** The values the command model admits: a string or a sequence of
    strings. *)
Definition string_or_sequence (value : pyval) : Prop :=
  match value with
  | PStr _ | PList _ => True
  | _ => False
  end.

(** A text given line by line. *)
Definition lines (l : list string) : string := Str.join nl l.

Definition is_unsetenv (cmd : command) : Prop :=
  match cmd with
  | Unsetenv _ => True
  | _ => False
  end.

Definition is_setenv (cmd : command) : Prop :=
  match cmd with
  | Setenv _ _ => True
  | _ => False
  end.


(** * Properties *)

(** ** Strings *)

#[local] Arguments String.append !_ _ / : simpl nomatch.

Lemma append_assoc (a b c : string) : (a +:+ b) +:+ c = a +:+ (b +:+ c).
Proof. induction a as [|x a IH]; simpl; [reflexivity | now rewrite IH]. Qed.

Lemma append_nil_r (a : string) : a +:+ EmptyString = a.
Proof. induction a as [|x a IH]; simpl; [reflexivity | now rewrite IH]. Qed.

Lemma length_append (a b : string) :
  String.length (a +:+ b) = String.length a + String.length b.
Proof. induction a as [|x a IH]; simpl; [reflexivity | now rewrite IH]. Qed.

Lemma ascii_eqb_false (c d : ascii) : c ≠ d -> Ascii.eqb c d = false.
Proof. intros Hne. destruct (Ascii.eqb_spec c d); [contradiction | reflexivity]. Qed.

Lemma contains_cons_false (d c : ascii) (s : string) :
  Str.contains d (String c s) = false -> d ≠ c ∧ Str.contains d s = false.
Proof.
  simpl. intros Hc. apply orb_false_elim in Hc as [Hd Hs]. split; [|exact Hs].
  intros ->. now rewrite Ascii.eqb_refl in Hd.
Qed.

(** ** Splitting and joining *)

Lemma split_go_nonempty sep : forall s skip cur, Str.split_go sep skip cur s ≠ [].
Proof.
  induction s as [|c s IH]; intros skip cur; simpl; [discriminate|].
  destruct skip; [|apply IH].
  destruct (Str.startswith sep (String c s)); [discriminate | apply IH].
Qed.

Lemma join_cons sep x l : l ≠ [] -> Str.join sep (x :: l) = x +:+ sep +:+ Str.join sep l.
Proof. destruct l; [congruence | reflexivity]. Qed.

Lemma join_snoc sep x : forall l,
  l ≠ [] -> Str.join sep (l ++ [x]) = Str.join sep l +:+ sep +:+ x.
Proof.
  induction l as [|y l IH]; [congruence|]. intros _.
  destruct l as [|z l]; [reflexivity|].
  change ((y :: z :: l) ++ [x]) with (y :: ((z :: l) ++ [x])).
  rewrite join_cons by (destruct l; discriminate).
  rewrite IH by discriminate.
  rewrite (join_cons sep y (z :: l)) by discriminate.
  now rewrite !append_assoc.
Qed.

Lemma startswith_append p : forall s,
  Str.startswith p s = true -> s = p +:+ Str.drop (String.length p) s.
Proof.
  induction p as [|a p IH]; intros s Hs; [reflexivity|].
  destruct s as [|b s]; [discriminate|]. simpl in Hs.
  apply andb_prop in Hs as [Hab Hs]. apply Ascii.eqb_eq in Hab as ->.
  simpl. f_equal. now apply IH.
Qed.

Lemma split_go_skip sep : forall t cur rest,
  Str.split_go sep (String.length t) cur (t +:+ rest) = Str.split_go sep 0 cur rest.
Proof. induction t as [|c t IH]; intros cur rest; simpl; [reflexivity | apply IH]. Qed.

Lemma length_drop : forall n s, String.length (Str.drop n s) <= String.length s.
Proof.
  induction n as [|n IH]; intros s; simpl; [lia|].
  destruct s as [|c s]; simpl; [lia|]. specialize (IH s). lia.
Qed.

(** Joining the pieces of a split with the separator gives the string
    back. *)
Lemma join_split_go sep : sep ≠ EmptyString -> forall n s cur,
  String.length s <= n ->
  Str.join sep (Str.split_go sep 0 cur s) = cur +:+ s.
Proof.
  intros Hsep. induction n as [|n IH]; intros s cur Hlen.
  - destruct s; simpl in Hlen; [|lia]. simpl. now rewrite append_nil_r.
  - destruct s as [|c s]; [simpl; now rewrite append_nil_r|].
    simpl Str.split_go.
    destruct (Str.startswith sep (String c s)) eqn:Hstart.
    + destruct sep as [|a sep']; [congruence|].
      pose proof (startswith_append _ _ Hstart) as Heq.
      simpl in Heq. injection Heq as Hc Hs.
      replace (String.length (String a sep') - 1) with (String.length sep')
        by (simpl; lia).
      rewrite Hs at 1. rewrite split_go_skip.
      rewrite join_cons by apply split_go_nonempty.
      rewrite IH.
      * simpl. rewrite Hs at 2. now subst c.
      * pose proof (length_drop (String.length sep') s). simpl in Hlen. lia.
    + rewrite IH by (simpl in Hlen; lia).
      rewrite append_assoc. reflexivity.
Qed.

Lemma join_split sep s :
  sep ≠ EmptyString -> Str.join sep (Str.split_go sep 0 EmptyString s) = s.
Proof. intros Hsep. now rewrite (join_split_go sep Hsep (String.length s)). Qed.

Lemma split_go_dot_free attr : forall cur,
  Str.contains "." attr = false ->
  Str.split_go "." 0 cur attr = [cur +:+ attr].
Proof.
  induction attr as [|c attr IH]; intros cur Hdot.
  - simpl. now rewrite append_nil_r.
  - apply contains_cons_false in Hdot as [Hne Hdot].
    cbn [Str.split_go Str.startswith]. rewrite ascii_eqb_false by exact Hne.
    cbn [andb]. rewrite IH by exact Hdot. now rewrite append_assoc.
Qed.

(** The segments of [key.attr] are those of [key] and then [attr]. *)
Lemma split_go_dot_append attr :
  Str.contains "." attr = false ->
  forall key cur,
    Str.split_go "." 0 cur (key +:+ "." +:+ attr) = Str.split_go "." 0 cur key ++ [attr].
Proof.
  intros Hdot. induction key as [|c key IH]; intros cur.
  - cbn. now rewrite split_go_dot_free by exact Hdot.
  - change (String c key +:+ "." +:+ attr) with (String c (key +:+ "." +:+ attr)).
    cbn [Str.split_go Str.startswith].
    destruct (Ascii.eqb "." c); cbn [andb String.length Nat.sub]; rewrite IH; reflexivity.
Qed.

(** ** Substitution leaves text without matches alone *)

Section SubNoMatch.
Variable pat : option ascii -> string -> option Template.match_obj.
Variable conv : Template.match_obj -> result string.
Variable d : ascii.
Hypothesis pat_head : forall prev c rest, c ≠ d -> pat prev (String c rest) = None.

Lemma sub_without_head (s : string) : forall prev,
  Str.contains d s = false -> Template.sub pat conv prev 0 s = Ok s.
Proof.
  induction s as [|c s IH]; intros prev Hc; [reflexivity|].
  apply contains_cons_false in Hc as [Hne Hs].
  simpl. rewrite pat_head by congruence.
  now rewrite (IH (Some c) Hs).
Qed.

End SubNoMatch.

Lemma EnvExpand_pattern_head prev c rest :
  c ≠ "$"%char -> Template.EnvExpand_pattern prev (String c rest) = None.
Proof.
  intros Hne. unfold Template.EnvExpand_pattern.
  destruct c as [[] [] [] [] [] [] [] []]; try reflexivity. now destruct Hne.
Qed.

Lemma CustomExpand_pattern_head prev c rest :
  c ≠ "{"%char -> Template.CustomExpand_pattern prev (String c rest) = None.
Proof.
  intros Hne. unfold Template.CustomExpand_pattern.
  assert (Hnone : match String c rest with
                  | String "{" inner =>
                      match Re.before true ATTR_REG_STR "}" inner with
                      | Some n =>
                          Some {| Template.group0 := "{" +:+ Str.take n inner +:+ "}";
                                  Template.escaped := None; Template.named := None;
                                  Template.braced := Some (Str.take n inner);
                                  Template.invalid := None |}
                      | None => None
                      end
                  | _ => None
                  end = None).
  { destruct c as [[] [] [] [] [] [] [] []]; try reflexivity. now destruct Hne. }
  destruct prev as [p|]; [|exact Hnone].
  destruct p as [[] [] [] [] [] [] [] []]; try exact Hnone; reflexivity.
Qed.

Lemma EnvExpand_without_dollar environ s :
  Str.contains "$" s = false -> EnvExpand_safe_substitute environ s = Ok s.
Proof.
  intros Hs. unfold EnvExpand_safe_substitute, Template.safe_substitute.
  apply sub_without_head with (d := "$"%char); [apply EnvExpand_pattern_head | exact Hs].
Qed.

Lemma CustomExpand_without_brace `{PyObject V} (data : gmap string V) s :
  Str.contains "{" s = false -> CustomExpand_safe_substitute data s = Ok s.
Proof.
  intros Hs. unfold CustomExpand_safe_substitute, Template.safe_substitute.
  apply sub_without_head with (d := "{"%char); [apply CustomExpand_pattern_head | exact Hs].
Qed.

(** ** Expansion *)

(** C4, as amended.  A string without [$] and without [!] is left
    unchanged by the env-template expansion; the custom-template expansion
    leaves it unchanged when it has no [{] either (a brace group is a
    placeholder of the custom pattern with or without a [!] before it). *)
Theorem expansion_identity (s : string) :
  Str.contains "$" s = false ->
  Str.contains "!" s = false ->
  (forall environ, EnvExpand_safe_substitute environ s = Ok s)
  ∧ (Str.contains "{" s = false -> forall vars, expand vars s = Ok s).
Proof.
  intros Hdollar _. split.
  - intros environ. now apply EnvExpand_without_dollar.
  - intros Hbrace vars. now apply CustomExpand_without_brace.
Qed.

Lemma expansion_identity_witness :
  (forall environ, EnvExpand_safe_substitute environ "a/b c" = Ok "a/b c")
  ∧ (forall vars, expand vars "a/b c" = Ok "a/b c").
Proof.
  destruct (expansion_identity "a/b c" eq_refl eq_refl) as [Henv Hcustom].
  split; [exact Henv | exact (Hcustom eq_refl)].
Defined.

(** C4 as stated fails: ["{V1}"] has neither [$] nor [!], and the
    custom-template expansion replaces it. *)
Lemma expansion_identity_counterexample :
  Str.contains "$" "{V1}" = false
  ∧ Str.contains "!" "{V1}" = false
  ∧ expand {[ "V1" := PStr "1" ]} "{V1}" = Ok "1"
  ∧ expand {[ "V1" := PStr "1" ]} "{V1}" ≠ Ok "{V1}".
Proof. repeat split; try (vm_compute; reflexivity). vm_compute. discriminate. Qed.

(** ** The attribute namespace *)

Section AttrDictFacts.
Context {V : Type} `{PyObject V}.
Variable data : gmap string V.

(** A key stored in the map resolves to its value. *)
Lemma getitem_stored (key : string) (x : V) :
  data !! key = Some x -> AttrDict___getitem__ data key = Ok x.
Proof.
  intros Hx. unfold AttrDict___getitem__.
  destruct (rev (Str.split_go "." 0 "" key)) as [|p rest] eqn:Hrev.
  - apply (f_equal (@rev string)) in Hrev. rewrite rev_involutive in Hrev.
    now apply split_go_nonempty in Hrev.
  - cbn [probe]. rewrite <- Hrev, rev_involutive, join_split by discriminate.
    now rewrite Hx.
Qed.

(** One step of attribute access: [key] is stored with value [x], [key.attr]
    is not stored, and [x.attr] is [y]. *)
Lemma getitem_attribute (key attr : string) (x y : V) :
  Str.contains "." attr = false ->
  data !! key = Some x ->
  data !! (key +:+ "." +:+ attr) = None ->
  py_getattr x attr = Some y ->
  AttrDict___getitem__ data (key +:+ "." +:+ attr) = Ok y.
Proof.
  intros Hdot Hx Hnone Hy. unfold AttrDict___getitem__.
  rewrite split_go_dot_append by exact Hdot.
  rewrite rev_unit. cbn [probe rev]. rewrite rev_involutive.
  rewrite join_snoc by apply split_go_nonempty.
  rewrite join_split by discriminate. rewrite Hnone.
  destruct (rev (Str.split_go "." 0 "" key)) as [|p rest] eqn:Hrev.
  - apply (f_equal (@rev string)) in Hrev. rewrite rev_involutive in Hrev.
    now apply split_go_nonempty in Hrev.
  - cbn [probe]. rewrite <- Hrev, rev_involutive, join_split by discriminate.
    rewrite Hx. cbn [walk app]. now rewrite Hy.
Qed.

(** A key without a dot that is not stored is unknown. *)
Lemma getitem_unknown (key : string) :
  Str.contains "." key = false ->
  data !! key = None ->
  AttrDict___getitem__ data key = Raise (KeyError key).
Proof.
  intros Hdot Hnone. unfold AttrDict___getitem__.
  rewrite split_go_dot_free by exact Hdot.
  cbn [rev app probe Str.join String.append]. now rewrite Hnone.
Qed.

Lemma getitem_ab (x : V) :
  data !! "a.b" = Some x -> AttrDict___getitem__ data "a.b" = Ok x.
Proof. apply getitem_stored. Qed.

Lemma getitem_abc (x y : V) :
  data !! "a.b.c" = None -> data !! "a.b" = Some x -> py_getattr x "c" = Some y ->
  AttrDict___getitem__ data "a.b.c" = Ok y.
Proof.
  intros Hn Hx Hy. now apply (getitem_attribute "a.b" "c" x y).
Qed.

Lemma getitem_a :
  data !! "a" = None -> AttrDict___getitem__ data "a" = Raise (KeyError "a").
Proof. now apply getitem_unknown. Qed.

End AttrDictFacts.

(** C6.  With [a.b] stored with value [x], [x.c] being [y], and neither
    [a.b.c] nor [a] stored: [a.b.c] resolves to [y], [a.b] to [x], and [a]
    fails with the unknown-key error. *)
Theorem attr_namespace_longest_prefix {V : Type} `{PyObject V}
    (data : gmap string V) (x y : V) :
  data !! "a.b" = Some x ->
  data !! "a.b.c" = None ->
  data !! "a" = None ->
  py_getattr x "c" = Some y ->
  AttrDict___getitem__ data "a.b.c" = Ok y
  ∧ AttrDict___getitem__ data "a.b" = Ok x
  ∧ AttrDict___getitem__ data "a" = Raise (KeyError "a").
Proof.
  intros Hx Hn Ha Hy. split; [|split].
  - now apply getitem_abc with x.
  - now apply getitem_ab.
  - now apply getitem_a.
Qed.

Lemma attr_namespace_longest_prefix_witness :
  let x := PObj "<x>" [("c", PStr "y")] in
  let data : gmap string pyval := {[ "a.b" := x ]} in
  AttrDict___getitem__ data "a.b.c" = Ok (PStr "y")
  ∧ AttrDict___getitem__ data "a.b" = Ok x
  ∧ AttrDict___getitem__ data "a" = Raise (KeyError "a").
Proof.
  intros x data.
  apply (attr_namespace_longest_prefix data x (PStr "y")); vm_compute; reflexivity.
Defined.

(** C3, as amended.  With [thing.name] bound to ["n"] and [thing] bound to
    an object whose attribute [bar] is ["v"] (and no key [thing.bar]), each
    brace group is replaced by its value and the [!] before it stays: the
    text of the claim expands to ["!n and !v"], and the same text without
    the [!] to ["n and v"]. *)
Theorem attribute_traversal (vars : gmap string pyval) (obj : pyval) :
  vars !! "thing.name" = Some (PStr "n") ->
  vars !! "thing" = Some obj ->
  vars !! "thing.bar" = None ->
  py_getattr obj "bar" = Some (PStr "v") ->
  expand vars "!{thing.name} and !{thing.bar}" = Ok "!n and !v"
  ∧ expand vars "{thing.name} and {thing.bar}" = Ok "n and v".
Proof.
  intros Hname Hthing Hnone Hbar.
  assert (Hn : AttrDict___getitem__ vars "thing.name" = Ok (PStr "n"))
    by now apply getitem_stored.
  assert (Hb : AttrDict___getitem__ vars "thing.bar" = Ok (PStr "v")).
  { unfold AttrDict___getitem__.
    change (Str.split_go "." 0 "" "thing.bar") with ["thing"; "bar"].
    change (rev ["thing"; "bar"]) with ["bar"; "thing"].
    unfold probe. change (Str.join "." (rev ["bar"; "thing"])) with "thing.bar".
    rewrite Hnone. change (Str.join "." (rev ["thing"])) with "thing".
    rewrite Hthing. cbn [walk app]. now rewrite Hbar. }
  unfold expand, CustomExpand_safe_substitute, Template.safe_substitute.
  generalize dependent (AttrDict___getitem__ vars). intros mapping Hn Hb.
  split.
  - vm_compute. rewrite Hn. vm_compute. rewrite Hb. reflexivity.
  - vm_compute. rewrite Hn. vm_compute. rewrite Hb. reflexivity.
Qed.

Lemma attribute_traversal_witness :
  let vars : gmap string pyval :=
    <["thing.name" := PStr "n"]> {[ "thing" := PObj "<Foo>" [("bar", PStr "v")] ]} in
  expand vars "!{thing.name} and !{thing.bar}" = Ok "!n and !v"
  ∧ expand vars "{thing.name} and {thing.bar}" = Ok "n and v".
Proof.
  intros vars.
  apply (attribute_traversal vars (PObj "<Foo>" [("bar", PStr "v")]));
    vm_compute; reflexivity.
Defined.

(** C3 as stated fails: the result keeps both [!]. *)
Lemma attribute_traversal_counterexample :
  let vars : gmap string pyval :=
    <["thing.name" := PStr "n"]> {[ "thing" := PObj "<Foo>" [("bar", PStr "v")] ]} in
  expand vars "!{thing.name} and !{thing.bar}" ≠ Ok "n and v".
Proof. vm_compute. discriminate. Qed.

(** ** Insertion into the attribute namespace *)

(** A key that is not a string is refused with [TypeError], a string that
    does not match [ATTR_REG] with [ValueError]. *)
Lemma setitem_refused `{PyObject V} (data : gmap string V) (key value : V) :
  (py_basestring key = None ->
   AttrDict___setitem__ data key value = Raise (TypeError "key must be a string"))
  ∧ (forall k, py_basestring key = Some k -> ATTR_REG_match k = false ->
     AttrDict___setitem__ data key value
     = Raise (ValueError "key must be of the format 'node.attr1.attr2'")).
Proof.
  unfold AttrDict___setitem__. split.
  - now intros ->.
  - now intros k -> ->.
Qed.

(** C7 at the failing inputs.  The keys ["a."] and ["a..b"] are not dotted
    identifiers, yet [ATTR_REG] matches them (its repeated group starts with
    one of [._a-z], not with a dot followed by one of [_a-z]) and the
    insertion stores them. *)
Theorem setitem_accepts_malformed_keys (data : gmap string pyval) (value : pyval) :
  Re.fullmatch true spec_dotted_identifier "a." = false
  ∧ Re.fullmatch true spec_dotted_identifier "a..b" = false
  ∧ AttrDict___setitem__ data (PStr "a.") value = Ok (<["a." := value]> data)
  ∧ AttrDict___setitem__ data (PStr "a..b") value = Ok (<["a..b" := value]> data).
Proof.
  assert (Hdot : ATTR_REG_match "a." = true) by (vm_compute; reflexivity).
  assert (Hdots : ATTR_REG_match "a..b" = true) by (vm_compute; reflexivity).
  unfold AttrDict___setitem__. cbn [py_basestring pyval_object].
  rewrite Hdot, Hdots.
  repeat split; vm_compute; reflexivity.
Qed.

(** ** Recording through the routing namespace *)

(** A [$]-form survives the custom expansion, whatever the namespace
    holds. *)
Lemma env_form_preserved (vars : gmap string pyval) :
  expand vars "/x/${SHORT}" = Ok "/x/${SHORT}".
Proof. vm_compute. reflexivity. Qed.

(** C1, as amended.  With the custom namespace [{V1: "1", V2: "2"}]: the
    key [SHORT] is all capitals, so the assignment is routed to the
    environment view and records a SETENV of [SHORT] with the value
    unchanged, and no local is stored; [setenv("APP", "/x/${SHORT}")] then
    records the value as it is written.  A lower-case target with braced
    names, [short = "{V1}.{V2}"], stores the local with value ["1.2"]. *)
Theorem record_time_expansion :
  let g0 := RoutingDict___init__ (<["V1" := PStr "1"]> {[ "V2" := PStr "2" ]}) in
  (g ← exec g0 [Assign "SHORT" (PStr "!V1.!V2");
                Call "setenv" [PStr "APP"; PStr "/x/${SHORT}"]];
   Ok (commands (command_recorder g), vars g !! "SHORT"))
  = Ok ([Setenv "SHORT" (PStr "!V1.!V2"); Setenv "APP" (PStr "/x/${SHORT}")], None)
  ∧
  (g ← exec g0 [Assign "short" (PStr "{V1}.{V2}");
                Call "setenv" [PStr "APP"; PStr "/x/${SHORT}"]];
   Ok (commands (command_recorder g), vars g !! "short"))
  = Ok ([Setenv "APP" (PStr "/x/${SHORT}")], Some (PStr "1.2")).
Proof. split; vm_compute; reflexivity. Qed.

(** C1 as stated fails: after the two statements the namespace has no
    local [SHORT] with value ["1.2"]. *)
Lemma record_time_expansion_counterexample :
  let g0 := RoutingDict___init__ (<["V1" := PStr "1"]> {[ "V2" := PStr "2" ]}) in
  (g ← exec g0 [Assign "SHORT" (PStr "!V1.!V2");
                Call "setenv" [PStr "APP"; PStr "/x/${SHORT}"]];
   Ok (vars g !! "SHORT"))
  ≠ Ok (Some (PStr "1.2")).
Proof. vm_compute. discriminate. Qed.

(** ** The emitters' conditional block *)

(** C2 at the failing input.  [SH] with [respect_parent_env] on, nothing
    set before, [P] prepended (then, from a fresh interpreter, appended)
    with ["new"]: the branch taken when [$P] is set assigns the bare value and
    the other branch extends.  [CSH] tests for the variable being unset and
    has the bare assignment in that branch. *)
Theorem sh_conditional_block (list2cmdline : list string -> string) :
  let run c cmd :=
    (fun r : interpreter * string => snd r)
      <$> CommandInterpreter__execute ":" list2cmdline
            (CommandInterpreter___init__ c true None) [cmd] in
  run SH (Prependenv "P" (PStr "new"))
  = Ok (lines ["if [[ $P ]]; then";
               "    export P=" +:+ dq +:+ "new" +:+ dq;
               "else";
               "    export P=" +:+ dq +:+ "new:$P" +:+ dq;
               "fi"])
  ∧ run SH (Appendenv "P" (PStr "new"))
    = Ok (lines ["if [[ $P ]]; then";
                 "    export P=" +:+ dq +:+ "new" +:+ dq;
                 "else";
                 "    export P=" +:+ dq +:+ "$P:new" +:+ dq;
                 "fi"])
  ∧ run CSH (Prependenv "P" (PStr "new"))
    = Ok (lines ["if ( ! $?P ) then";
                 "    setenv P " +:+ dq +:+ "new" +:+ dq;
                 "else";
                 "    setenv P " +:+ dq +:+ "new:$P" +:+ dq;
                 "endif"])
  ∧ run CSH (Appendenv "P" (PStr "new"))
    = Ok (lines ["if ( ! $?P ) then";
                 "    setenv P " +:+ dq +:+ "new" +:+ dq;
                 "else";
                 "    setenv P " +:+ dq +:+ "$P:new" +:+ dq;
                 "endif"]).
Proof. repeat split; vm_compute; reflexivity. Qed.

(** ** The live executor's unsetenv *)

(** C5 at the failing inputs.  [unsetenv] of a key that the environment
    mapping does not hold raises [KeyError]: [dict.pop] is called without a
    default. *)
Theorem unsetenv_absent_key (os_pathsep : string) (list2cmdline : list string -> string)
    (self : interpreter) (environ : gmap string string) (key : string)
    (rest : list command) :
  cls self = Python ->
  _environ self = Some environ ->
  environ !! key = None ->
  Python_unsetenv self key = Raise (KeyError key)
  ∧ Python__execute os_pathsep list2cmdline self (Unsetenv key :: rest)
    = Raise (KeyError key).
Proof.
  intros Hcls Henv Hkey.
  assert (Hun : Python_unsetenv self key = Raise (KeyError key)).
  { unfold Python_unsetenv. rewrite Henv. cbn. now rewrite Hkey. }
  split; [exact Hun|].
  unfold Python__execute, CommandInterpreter__execute. cbn [execute_loop].
  unfold call. rewrite Hcls, Hun. reflexivity.
Qed.

Lemma unsetenv_absent_key_witness :
  Python_unsetenv (Python___init__ true ∅) "X" = Raise (KeyError "X")
  ∧ Python__execute ":" (fun _ => EmptyString) (Python___init__ true ∅) [Unsetenv "X"]
    = Raise (KeyError "X").
Proof.
  apply (unsetenv_absent_key ":" (fun _ => EmptyString) (Python___init__ true ∅) ∅ "X" []);
    reflexivity.
Defined.

(** ** The execution loop *)

Ltac break_result :=
  repeat match goal with
         | H : Ok _ = Ok _ |- _ => injection H as H; try subst
         | H : Raise _ = Ok _ |- _ => discriminate H
         | H : (_, _) = (_, _) |- _ => injection H as H; try subst
         | H : context [match ?x with _ => _ end] |- _ =>
             first [ is_var x; destruct x | destruct x eqn:? ]; cbn in H
         end.

Section Loop.
Variable os_pathsep : string.
Variable list2cmdline : list string -> string.

Lemma call_same_config self cmd self1 res :
  call os_pathsep list2cmdline self cmd = Ok (self1, res) -> same_config self self1.
Proof.
  unfold call, same_config. intros Hcall.
  destruct (cls self) eqn:Hcls, cmd; cbn in Hcall;
    unfold emits, returns, mutates, Python_setenv, Python_unsetenv, Python_prependenv,
      Python_appendenv, Python_info, Python_error, Python__set_env_list,
      mbind, result_bind in Hcall;
    break_result; cbn; rewrite ?Hcls; auto.
Qed.

(** The emitters and the Windows interpreter do not change the object. *)
Lemma call_shell_pure self cmd self1 res :
  cls self ≠ Python ->
  call os_pathsep list2cmdline self cmd = Ok (self1, res) -> self1 = self.
Proof.
  unfold call. intros Hne Hcall.
  destruct (cls self) eqn:Hcls, cmd; try congruence; cbn in Hcall;
    unfold emits, returns, mbind, result_bind in Hcall;
    break_result; reflexivity.
Qed.

Lemma execute_loop_cons self lines cmd rest :
  execute_loop os_pathsep list2cmdline self lines (cmd :: rest)
  = '(self1, res) ← call os_pathsep list2cmdline self cmd;
    self2 ← match set_key cmd with
            | Some k =>
                vars ← attr "_set_env_vars" (_set_env_vars self1);
                Ok (with_set_env_vars self1 ({[k]} ∪ vars))
            | None => Ok self1
            end;
    execute_loop os_pathsep list2cmdline self2
      (match res with Some line => lines ++ [line] | None => lines end) rest.
Proof. reflexivity. Qed.

(** One round of the loop, when it goes through. *)
Lemma execute_loop_step self lines cmd rest out :
  execute_loop os_pathsep list2cmdline self lines (cmd :: rest) = Ok out ->
  exists self1 res self2,
    call os_pathsep list2cmdline self cmd = Ok (self1, res)
    ∧ match set_key cmd with
      | Some k => exists vars, _set_env_vars self1 = Some vars
                               ∧ self2 = with_set_env_vars self1 ({[k]} ∪ vars)
      | None => self2 = self1
      end
    ∧ execute_loop os_pathsep list2cmdline self2
        (match res with Some line => lines ++ [line] | None => lines end) rest = Ok out.
Proof.
  rewrite execute_loop_cons. unfold mbind, result_bind.
  destruct (call os_pathsep list2cmdline self cmd) as [[self1 res]|e]; [|discriminate].
  intros Hrest. exists self1, res.
  destruct (set_key cmd) as [k|].
  - unfold attr in Hrest. destruct (_set_env_vars self1) as [vars|] eqn:Hvars; [|discriminate].
    exists (with_set_env_vars self1 ({[k]} ∪ vars)). split; [reflexivity|]. split; [|exact Hrest].
    exists vars. split; reflexivity.
  - exists self1. auto.
Qed.

Lemma execute_loop_app self lines pre post self1 lines1 :
  execute_loop os_pathsep list2cmdline self lines pre = Ok (self1, lines1) ->
  execute_loop os_pathsep list2cmdline self lines (pre ++ post)
  = execute_loop os_pathsep list2cmdline self1 lines1 post.
Proof.
  revert self lines. induction pre as [|cmd pre IH]; intros self lines Hpre.
  - simpl in Hpre. injection Hpre as -> ->. reflexivity.
  - change ((cmd :: pre) ++ post) with (cmd :: (pre ++ post)).
    rewrite execute_loop_cons in Hpre |- *. unfold mbind, result_bind in Hpre |- *.
    destruct (call os_pathsep list2cmdline self cmd) as [[s1 res]|e]; [|discriminate].
    destruct (match set_key cmd with
              | Some k => _
              | None => _
              end) as [s2|e]; [|discriminate].
    now apply IH.
Qed.

(** The loop keeps the class, the policy and the separator map, and the set
    of already-set variables only grows. *)
Lemma execute_loop_config log : forall self lines self1 lines1,
  execute_loop os_pathsep list2cmdline self lines log = Ok (self1, lines1) ->
  cls self1 = cls self
  ∧ _respect_parent_env self1 = _respect_parent_env self
  ∧ _env_sep_map self1 = _env_sep_map self
  ∧ set_global self1 = set_global self
  ∧ (forall vars, _set_env_vars self = Some vars ->
       exists vars1, _set_env_vars self1 = Some vars1 ∧ vars ⊆ vars1).
Proof.
  induction log as [|cmd log IH]; intros self lines self1 lines1 Hloop.
  - simpl in Hloop. injection Hloop as -> ->. repeat split; eauto.
  - apply execute_loop_step in Hloop as (s1 & res & s2 & Hcall & Hset & Hrest).
    apply call_same_config in Hcall as (Hc & Hr & Hm & Hv & Hg).
    apply IH in Hrest as (Hc2 & Hr2 & Hm2 & Hg2 & Hv2).
    destruct (set_key cmd) as [k|].
    + destruct Hset as (vars0 & Hvars0 & ->). cbn in *.
      repeat split; try congruence.
      intros vars Hvars. destruct (Hv2 _ eq_refl) as (vars1 & Hv1 & Hsub).
      exists vars1. split; [exact Hv1|].
      assert (vars0 = vars) as -> by congruence.
      intros x Hx. apply Hsub, elem_of_union. now right.
    + subst s2. repeat split; try congruence.
      intros vars Hvars. apply Hv2. congruence.
Qed.

(** Once the loop has gone through a command that sets [key], the key is
    in the set of already-set variables. *)
Lemma execute_loop_touched key log : forall self lines self1 lines1,
  execute_loop os_pathsep list2cmdline self lines log = Ok (self1, lines1) ->
  touched key log ->
  exists vars, _set_env_vars self1 = Some vars ∧ key ∈ vars.
Proof.
  unfold touched.
  induction log as [|cmd log IH]; intros self lines self1 lines1 Hloop Htouched.
  - inversion Htouched.
  - apply execute_loop_step in Hloop as (s1 & res & s2 & Hcall & Hset & Hrest).
    inversion Htouched as [? ? Hkey | ? ? Hlater]; subst.
    + rewrite Hkey in Hset. destruct Hset as (vars0 & Hvars0 & ->).
      apply execute_loop_config in Hrest as (_ & _ & _ & _ & Hgrow).
      destruct (Hgrow _ eq_refl) as (vars1 & Hv1 & Hsub).
      exists vars1. split; [exact Hv1 | set_solver].
    + eapply IH; eauto.
Qed.

End Loop.

(** ** The Windows interpreter *)

Section WinShellFacts.
Variable os_pathsep : string.
Variable list2cmdline : list string -> string.
Variable self : interpreter.
Variable global : bool.
Hypothesis self_class : cls self = WinShell.
Hypothesis self_global : set_global self = Some global.
Hypothesis self_unset : _set_env_vars self = None.

Lemma winshell_unsetenv_prefix pre : forall lines,
  Forall is_unsetenv pre ->
  exists lines1, execute_loop os_pathsep list2cmdline self lines pre = Ok (self, lines1).
Proof.
  induction pre as [|cmd pre IH]; intros lines Hpre.
  - exists lines. reflexivity.
  - inversion Hpre as [|? ? Hcmd Hrest]; subst.
    destruct cmd; try contradiction.
    rewrite execute_loop_cons. unfold call. rewrite self_class.
    unfold emits, WinShell_unsetenv. rewrite self_global. cbn.
    apply IH, Hrest.
Qed.

Lemma winshell_setenv_reached key s rest lines :
  global = false ∨ key ∉ WIN_PATH_VARS ->
  execute_loop os_pathsep list2cmdline self lines (Setenv key (PStr s) :: rest)
  = Raise (AttributeError "_set_env_vars").
Proof.
  intros Hkey. rewrite execute_loop_cons. unfold call. rewrite self_class.
  unfold emits, WinShell_setenv. rewrite self_global. cbn.
  destruct global.
  - destruct Hkey as [|Hkey]; [discriminate|].
    rewrite bool_decide_eq_false_2 by exact Hkey. cbn. now rewrite self_unset.
  - cbn. now rewrite self_unset.
Qed.

Lemma winshell_setenv_never_passes log : forall lines,
  Exists is_setenv log ->
  exists e, execute_loop os_pathsep list2cmdline self lines log = Raise e.
Proof.
  induction log as [|cmd log IH]; intros lines Hex; [inversion Hex|].
  rewrite execute_loop_cons. unfold mbind, result_bind.
  destruct (call os_pathsep list2cmdline self cmd) as [[s1 res]|e] eqn:Hcall; [|eauto].
  assert (s1 = self) as -> by (eapply call_shell_pure; [|exact Hcall]; congruence).
  destruct cmd; cbn [set_key]; unfold attr; rewrite ?self_unset; eauto;
    try (inversion Hex as [? ? Hhead | ? ? Htail]; subst; [contradiction | now apply IH]).
Qed.

End WinShellFacts.

(** C10, as amended.  The constructor of the Windows interpreter leaves the
    policy flag, the separator map and the set of already-set variables
    unassigned.  Every command log with a SETENV fails.  The failure is the
    attribute error of the loop recording the key when the SETENV is reached
    and its method returns: the commands before it are UNSETENVs, its value
    is a string, and [set_global] is off or the key is no path variable. *)
Theorem winshell_setenv_fails (os_pathsep : string) (list2cmdline : list string -> string)
    (global : bool) :
  let self := WinShell___init__ global in
  (_respect_parent_env self = None ∧ _env_sep_map self = None ∧ _set_env_vars self = None)
  ∧ (forall log, Exists is_setenv log ->
       exists e, CommandInterpreter__execute os_pathsep list2cmdline self log = Raise e)
  ∧ (forall pre key s rest,
       Forall is_unsetenv pre ->
       global = false ∨ key ∉ WIN_PATH_VARS ->
       CommandInterpreter__execute os_pathsep list2cmdline self
         (pre ++ Setenv key (PStr s) :: rest)
       = Raise (AttributeError "_set_env_vars")).
Proof.
  intros self. split; [repeat split|]. split.
  - intros log Hlog.
    destruct (winshell_setenv_never_passes os_pathsep list2cmdline self
                eq_refl eq_refl log [] Hlog) as [e He].
    exists e. unfold CommandInterpreter__execute. now rewrite He.
  - intros pre key s rest Hpre Hkey.
    destruct (winshell_unsetenv_prefix os_pathsep list2cmdline self global
                eq_refl eq_refl pre [] Hpre) as [lines1 Hloop].
    unfold CommandInterpreter__execute.
    rewrite (execute_loop_app _ _ _ _ _ _ _ _ Hloop).
    now rewrite (winshell_setenv_reached os_pathsep list2cmdline self global
                   eq_refl eq_refl eq_refl key s rest lines1 Hkey).
Qed.

Lemma winshell_setenv_fails_witness :
  (exists e, CommandInterpreter__execute ";" (fun _ => EmptyString) (WinShell___init__ true)
               [Info (PStr "hello"); Setenv "PATH" (PList ["C:/a"])] = Raise e)
  ∧ CommandInterpreter__execute ";" (fun _ => EmptyString) (WinShell___init__ false)
      ([Unsetenv "X"] ++ Setenv "X" (PStr "a/b") :: [Info (PStr "hello")])
    = Raise (AttributeError "_set_env_vars").
Proof.
  split.
  - apply (winshell_setenv_fails ";" (fun _ => EmptyString) true).
    apply Exists_cons_tl, Exists_cons_hd. exact I.
  - apply (winshell_setenv_fails ";" (fun _ => EmptyString) false).
    + repeat constructor.
    + left. reflexivity.
Defined.

(** C10 as stated fails: a log with a SETENV after an INFO stops at the INFO,
    which the class does not implement, and a SETENV of a sequence stops in
    the method, at [replace]. *)
Lemma winshell_setenv_fails_counterexample :
  Exists is_setenv [Info (PStr "hello"); Setenv "X" (PStr "a")]
  ∧ CommandInterpreter__execute ";" (fun _ => EmptyString) (WinShell___init__ false)
      [Info (PStr "hello"); Setenv "X" (PStr "a")]
    = Raise NotImplementedError
  ∧ CommandInterpreter__execute ";" (fun _ => EmptyString) (WinShell___init__ false)
      [Setenv "X" (PList ["a"; "b"])]
    = Raise (AttributeError "replace").
Proof.
  split; [|split; reflexivity].
  apply Exists_cons_tl, Exists_cons_hd. exact I.
Qed.

(** ** The env-template expansion always returns *)

Lemma longest_idpattern_nonempty rest n :
  Re.longest true idpattern rest = Some n -> Str.take n rest ≠ EmptyString.
Proof.
  destruct rest as [|c rest]; [discriminate|].
  cbn [Re.longest]. destruct (Re.longest true (Re.deriv true c idpattern) rest).
  - intros [= <-]. discriminate.
  - discriminate.
Qed.

Lemma EnvExpand_convert_total (environ : gmap string string) prev s mo :
  Template.EnvExpand_pattern prev s = Some mo ->
  exists r, Template.convert "$"
              (fun name => match environ !! name with
                           | Some v => Ok v
                           | None => Raise (KeyError name)
                           end) mo = Ok r.
Proof.
  intros Hpat.
  destruct s as [|c s]; [discriminate|].
  destruct (Ascii.eqb_spec c "$") as [->|Hc];
    [|now rewrite EnvExpand_pattern_head in Hpat].
  unfold Template.EnvExpand_pattern in Hpat. unfold Template.convert.
  assert (Hlookup : forall name text,
             exists r, match match environ !! name with
                             | Some v => Ok v
                             | None => Raise (KeyError name)
                             end with
                       | Ok v => Ok v
                       | Raise (KeyError _) => Ok text
                       | Raise e => Raise e
                       end = Ok r).
  { intros name text. destruct (environ !! name); eauto. }
  destruct s as [|d s].
  - cbn in Hpat. injection Hpat as <-. cbn. eauto.
  - destruct (Ascii.eqb_spec d "$") as [->|Hd]; [injection Hpat as <-; cbn; eauto|].
    assert (Hrest :
      match Re.longest true idpattern (String d s) with
      | Some k =>
          Some {| Template.group0 := "$" +:+ Str.take k (String d s);
                  Template.escaped := None;
                  Template.named := Some (Str.take k (String d s));
                  Template.braced := None; Template.invalid := None |}
      | None =>
          match String d s with
          | String "{" inner =>
              match Re.before true idpattern "}" inner with
              | Some k =>
                  Some {| Template.group0 := "${" +:+ Str.take k inner +:+ "}";
                          Template.escaped := None; Template.named := None;
                          Template.braced := Some (Str.take k inner);
                          Template.invalid := None |}
              | None => Some {| Template.group0 := "$"; Template.escaped := None;
                                Template.named := None; Template.braced := None;
                                Template.invalid := Some EmptyString |}
              end
          | _ => Some {| Template.group0 := "$"; Template.escaped := None;
                         Template.named := None; Template.braced := None;
                         Template.invalid := Some EmptyString |}
          end
      end = Some mo).
    { destruct d as [[] [] [] [] [] [] [] []]; try exact Hpat. now destruct Hd. }
    clear Hpat.
    destruct (Re.longest true idpattern (String d s)) as [k|] eqn:Hlong.
    + apply longest_idpattern_nonempty in Hlong. injection Hrest as <-. cbn.
      destruct (Str.take k (String d s)); [congruence | apply Hlookup].
    + destruct (Ascii.eqb_spec d "{") as [->|Hbrace].
      * destruct (Re.before true idpattern "}" s); injection Hrest as <-; cbn;
          [apply Hlookup | eauto].
      * assert (Hbad : Some {| Template.group0 := "$"; Template.escaped := None;
                               Template.named := None; Template.braced := None;
                               Template.invalid := Some EmptyString |} = Some mo).
        { destruct d as [[] [] [] [] [] [] [] []]; try exact Hrest. now destruct Hbrace. }
        injection Hbad as <-. cbn. eauto.
Qed.

Lemma sub_total pat conv :
  (forall prev s mo, pat prev s = Some mo -> exists r, conv mo = Ok r) ->
  forall s prev skip, exists r, Template.sub pat conv prev skip s = Ok r.
Proof.
  intros Hconv. induction s as [|c s IH]; intros prev skip; [now exists EmptyString|].
  cbn [Template.sub]. destruct skip as [|k]; [|apply IH].
  destruct (pat prev (String c s)) as [mo|] eqn:Hpat.
  - destruct (Hconv _ _ _ Hpat) as [r ->].
    destruct (IH (Some c) (String.length (Template.group0 mo) - 1)) as [rest ->].
    cbn. eauto.
  - destruct (IH (Some c) 0) as [rest ->]. cbn. eauto.
Qed.

Lemma EnvExpand_total environ s : exists r, EnvExpand_safe_substitute environ s = Ok r.
Proof.
  unfold EnvExpand_safe_substitute, Template.safe_substitute.
  apply sub_total. intros prev t mo. apply EnvExpand_convert_total.
Qed.

(** ** Variables already set by the log *)

Section AlreadySet.
Variable os_pathsep : string.
Variable list2cmdline : list string -> string.
Variable self : interpreter.
Variable seps : gmap string string.
Variable vars : gset string.
Variable key : string.
Variable value : pyval.
Hypothesis self_seps : _env_sep_map self = Some seps.
Hypothesis self_vars : _set_env_vars self = Some vars.
Hypothesis key_set : key ∈ vars.

Lemma join_value_text :
  (v ← join_value os_pathsep self key value; Ok (py_format v))
  = Ok (value_text (default os_pathsep (seps !! key)) value).
Proof.
  unfold join_value, _env_sep. rewrite self_seps. now destruct value.
Qed.

Lemma SH_extends :
  SH_prependenv os_pathsep (SH_setenv os_pathsep) self key value
  = Ok ("export " +:+ key +:+ "=" +:+ dq
        +:+ value_text (default os_pathsep (seps !! key)) value
        +:+ default os_pathsep (seps !! key) +:+ "$" +:+ key +:+ dq)
  ∧ SH_appendenv os_pathsep (SH_setenv os_pathsep) self key value
    = Ok ("export " +:+ key +:+ "=" +:+ dq +:+ "$" +:+ key
          +:+ default os_pathsep (seps !! key)
          +:+ value_text (default os_pathsep (seps !! key)) value +:+ dq).
Proof.
  unfold SH_prependenv, SH_appendenv, join_value, _env_sep.
  rewrite self_seps, self_vars.
  split; destruct value; cbn; rewrite bool_decide_eq_true_2 by exact key_set; reflexivity.
Qed.

Lemma CSH_extends :
  CSH_prependenv os_pathsep self key value
  = Ok ("setenv " +:+ key +:+ "=" +:+ dq
        +:+ value_text (default os_pathsep (seps !! key)) value
        +:+ default os_pathsep (seps !! key) +:+ "$" +:+ key +:+ dq)
  ∧ CSH_appendenv os_pathsep self key value
    = Ok ("setenv " +:+ key +:+ "=" +:+ dq +:+ "$" +:+ key
          +:+ default os_pathsep (seps !! key)
          +:+ value_text (default os_pathsep (seps !! key)) value +:+ dq).
Proof.
  unfold CSH_prependenv, CSH_appendenv, join_value, _env_sep.
  rewrite self_seps, self_vars.
  split; destruct value; cbn; rewrite bool_decide_eq_true_2 by exact key_set; reflexivity.
Qed.

Lemma Python_extends_set : Python_extends self key = Ok true.
Proof.
  unfold Python_extends. rewrite self_vars. cbn.
  now rewrite bool_decide_eq_true_2 by exact key_set.
Qed.

Lemma Python_extends_bound (environ : gmap string string) (old : string) :
  string_or_sequence value ->
  default os_pathsep (seps !! key) ≠ EmptyString ->
  _environ self = Some environ ->
  environ !! key = Some old ->
  exists expanded,
    EnvExpand_safe_substitute environ
      (value_text (default os_pathsep (seps !! key)) value) = Ok expanded
    ∧ Python_prependenv os_pathsep self key value
      = Ok (with_environ self
              (<[key := expanded +:+ default os_pathsep (seps !! key) +:+ old]> environ))
    ∧ Python_appendenv os_pathsep self key value
      = Ok (with_environ self
              (<[key := old +:+ default os_pathsep (seps !! key) +:+ expanded]> environ)).
Proof.
  intros Hvalue Hsep Henv Hold.
  set (sep := default os_pathsep (seps !! key)) in *.
  destruct (EnvExpand_total environ (value_text sep value)) as [expanded Hexp].
  exists expanded. split; [exact Hexp|].
  assert (Hjoin : join_value os_pathsep self key value = Ok (PStr (value_text sep value))).
  { unfold join_value, _env_sep. rewrite self_seps.
    destruct value; try contradiction; reflexivity. }
  assert (Hparts : Python__get_env_list os_pathsep self key
                   = Ok (Str.split_go sep 0 EmptyString old)).
  { unfold Python__get_env_list, _env_sep. rewrite Henv, self_seps. cbn. rewrite Hold.
    fold sep. unfold Str.split. destruct sep; [congruence | reflexivity]. }
  unfold Python_prependenv, Python_appendenv.
  rewrite Hjoin, Python_extends_set. cbn [mbind result_bind].
  unfold Python__expand. rewrite Henv. cbn [mbind result_bind attr]. rewrite Hexp.
  cbn [mbind result_bind]. rewrite Hparts. cbn [mbind result_bind].
  unfold Python__set_env_list, _env_sep. rewrite Henv, self_seps.
  cbn [mbind result_bind attr]. fold sep.
  rewrite join_cons by apply split_go_nonempty.
  rewrite join_snoc by apply split_go_nonempty.
  rewrite join_split by exact Hsep. split; reflexivity.
Qed.

End AlreadySet.

(** The already-set rule, where the code follows it.  After the loop has
    gone through a log in which [key]
    is the key of a SETENV, PREPENDENV or APPENDENV, a PREPENDENV or
    APPENDENV of [key] takes the extend form whatever the policy flag is:
    [SH] and [CSH] emit the line that extends [$key]; the live executor, for
    a string or sequence value and a key that the environment mapping still
    holds, binds the key to the expanded value, the separator and the old
    value, in this order for PREPENDENV and in the reverse order for
    APPENDENV. *)
Theorem already_set_rule (os_pathsep : string) (list2cmdline : list string -> string)
    (self self1 : interpreter) (lines0 lines1 : list string) (pre : list command)
    (seps : gmap string string) (key : string) (value : pyval) :
  execute_loop os_pathsep list2cmdline self lines0 pre = Ok (self1, lines1) ->
  touched key pre ->
  _env_sep_map self = Some seps ->
  let sep := default os_pathsep (seps !! key) in
  let text := value_text sep value in
  (cls self = SH ->
     call os_pathsep list2cmdline self1 (Prependenv key value)
     = Ok (self1, Some ("export " +:+ key +:+ "=" +:+ dq +:+ text +:+ sep
                        +:+ "$" +:+ key +:+ dq))
     ∧ call os_pathsep list2cmdline self1 (Appendenv key value)
       = Ok (self1, Some ("export " +:+ key +:+ "=" +:+ dq +:+ "$" +:+ key +:+ sep
                          +:+ text +:+ dq)))
  ∧ (cls self = CSH ->
       call os_pathsep list2cmdline self1 (Prependenv key value)
       = Ok (self1, Some ("setenv " +:+ key +:+ "=" +:+ dq +:+ text +:+ sep
                          +:+ "$" +:+ key +:+ dq))
       ∧ call os_pathsep list2cmdline self1 (Appendenv key value)
         = Ok (self1, Some ("setenv " +:+ key +:+ "=" +:+ dq +:+ "$" +:+ key +:+ sep
                            +:+ text +:+ dq)))
  ∧ (cls self = Python ->
       string_or_sequence value ->
       sep ≠ EmptyString ->
       forall environ old,
         _environ self1 = Some environ ->
         environ !! key = Some old ->
         exists expanded,
           EnvExpand_safe_substitute environ text = Ok expanded
           ∧ call os_pathsep list2cmdline self1 (Prependenv key value)
             = Ok (with_environ self1 (<[key := expanded +:+ sep +:+ old]> environ), None)
           ∧ call os_pathsep list2cmdline self1 (Appendenv key value)
             = Ok (with_environ self1 (<[key := old +:+ sep +:+ expanded]> environ), None)).
Proof.
  intros Hloop Htouched Hseps sep text.
  destruct (execute_loop_touched _ _ _ _ _ _ _ _ Hloop Htouched) as (vars & Hvars & Hkey).
  destruct (execute_loop_config _ _ _ _ _ _ _ Hloop) as (Hcls & _ & Hseps1 & _).
  rewrite Hseps in Hseps1.
  split; [|split].
  - intros Hsh. unfold call. rewrite Hcls, Hsh.
    destruct (SH_extends os_pathsep self1 seps vars key value Hseps1 Hvars Hkey) as [-> ->].
    split; reflexivity.
  - intros Hcsh. unfold call. rewrite Hcls, Hcsh.
    destruct (CSH_extends os_pathsep self1 seps vars key value Hseps1 Hvars Hkey) as [-> ->].
    split; reflexivity.
  - intros Hpy Hvalue Hsep environ old Henv Hold.
    destruct (Python_extends_bound os_pathsep self1 seps vars key value Hseps1 Hvars Hkey
                environ old Hvalue Hsep Henv Hold) as (expanded & Hexp & Hpre & Happ).
    exists expanded. split; [exact Hexp|].
    unfold call. rewrite Hcls, Hpy. unfold mutates. rewrite Hpre, Happ.
    split; reflexivity.
Qed.

Lemma already_set_rule_witness :
  let sh1 := with_set_env_vars (CommandInterpreter___init__ SH true None) ({["X"]} ∪ ∅) in
  let py1 := with_set_env_vars
               (with_environ (Python___init__ false ∅) (<["X" := "a"]> ∅)) ({["X"]} ∪ ∅) in
  (call ":" (fun _ => EmptyString) sh1 (Prependenv "X" (PList ["b"; "c"]))
   = Ok (sh1, Some ("export X=" +:+ dq +:+ "b:c:$X" +:+ dq))
   ∧ call ":" (fun _ => EmptyString) sh1 (Appendenv "X" (PList ["b"; "c"]))
     = Ok (sh1, Some ("export X=" +:+ dq +:+ "$X:b:c" +:+ dq)))
  ∧ (exists expanded,
       EnvExpand_safe_substitute (<["X" := "a"]> ∅) "b:c" = Ok expanded
       ∧ call ":" (fun _ => EmptyString) py1 (Prependenv "X" (PList ["b"; "c"]))
         = Ok (with_environ py1 (<["X" := expanded +:+ ":" +:+ "a"]> (<["X" := "a"]> ∅)), None)
       ∧ call ":" (fun _ => EmptyString) py1 (Appendenv "X" (PList ["b"; "c"]))
         = Ok (with_environ py1 (<["X" := "a" +:+ ":" +:+ expanded]> (<["X" := "a"]> ∅)), None)).
Proof.
  intros sh1 py1.
  assert (Htouched : touched "X" [Setenv "X" (PStr "a")])
    by (apply Exists_cons_hd; reflexivity).
  split.
  - destruct (already_set_rule ":" (fun _ => EmptyString)
                (CommandInterpreter___init__ SH true None) sh1 []
                ["export X=" +:+ dq +:+ "a" +:+ dq] [Setenv "X" (PStr "a")]
                ∅ "X" (PList ["b"; "c"]) eq_refl Htouched eq_refl) as (Hsh & _ & _).
    exact (Hsh eq_refl).
  - destruct (already_set_rule ":" (fun _ => EmptyString)
                (Python___init__ false ∅) py1 [] [] [Setenv "X" (PStr "a")]
                ∅ "X" (PList ["b"; "c"]) eq_refl Htouched eq_refl) as (_ & _ & Hpy).
    refine (Hpy eq_refl I _ (<["X" := "a"]> ∅) "a" eq_refl eq_refl).
    discriminate.
Defined.

(** C8 at the failing input.  In the live executor, after a SETENV and an
    UNSETENV of [X], a PREPENDENV or APPENDENV of [X] takes the extend
    branch, finds no value to extend and raises [KeyError], under either
    policy; [SH] emits the extend line for the same log. *)
Theorem already_set_rule_after_unset :
  let log cmd := [Setenv "X" (PStr "a"); Unsetenv "X"; cmd] in
  let python policy cmd :=
    Python__execute ":" (fun _ => EmptyString) (Python___init__ policy ∅) (log cmd) in
  touched "X" [Setenv "X" (PStr "a"); Unsetenv "X"]
  ∧ python true (Prependenv "X" (PStr "b")) = Raise (KeyError "X")
  ∧ python false (Prependenv "X" (PStr "b")) = Raise (KeyError "X")
  ∧ python true (Appendenv "X" (PStr "b")) = Raise (KeyError "X")
  ∧ python false (Appendenv "X" (PStr "b")) = Raise (KeyError "X")
  ∧ (fun r : interpreter * string => snd r)
      <$> CommandInterpreter__execute ":" (fun _ => EmptyString)
            (CommandInterpreter___init__ SH true None) (log (Prependenv "X" (PStr "b")))
    = Ok (lines ["export X=" +:+ dq +:+ "a" +:+ dq;
                 "unset X";
                 "export X=" +:+ dq +:+ "b:$X" +:+ dq]).
Proof.
  split; [apply Exists_cons_hd; reflexivity|].
  repeat split; vm_compute; reflexivity.
Qed.

(** ** Sequence values *)

Section SequenceJoin.
Variable os_pathsep : string.
Variable list2cmdline : list string -> string.
Variable seps : gmap string string.

Lemma call_join_sequence self cmd :
  cls self ≠ WinShell ->
  _env_sep_map self = Some seps ->
  call os_pathsep list2cmdline self
    (join_sequence (fun k => default os_pathsep (seps !! k)) cmd)
  = call os_pathsep list2cmdline self cmd.
Proof.
  intros Hcls Hseps.
  destruct cmd as [k v|k|k v|k v|k v|v|v|v|v|v]; try reflexivity;
    destruct v; try reflexivity;
    unfold call; destruct (cls self); try congruence; cbn [join_sequence];
    unfold SH_setenv, SH_prependenv, SH_appendenv, CSH_setenv, CSH_prependenv, CSH_appendenv,
      Python_setenv, Python_prependenv, Python_appendenv, join_value, _env_sep;
    rewrite Hseps; reflexivity.
Qed.

Lemma set_key_join_sequence sep_of cmd : set_key (join_sequence sep_of cmd) = set_key cmd.
Proof. destruct cmd as [k v|k|k v|k v|k v|v|v|v|v|v]; try reflexivity; now destruct v. Qed.

Lemma execute_loop_join_sequence log : forall self lines,
  cls self ≠ WinShell ->
  _env_sep_map self = Some seps ->
  execute_loop os_pathsep list2cmdline self lines
    (map (join_sequence (fun k => default os_pathsep (seps !! k))) log)
  = execute_loop os_pathsep list2cmdline self lines log.
Proof.
  induction log as [|cmd log IH]; intros self lines Hcls Hseps; [reflexivity|].
  cbn [map]. rewrite !execute_loop_cons.
  rewrite call_join_sequence, set_key_join_sequence by assumption.
  destruct (call os_pathsep list2cmdline self cmd) as [[self1 res]|e] eqn:Hcall;
    [|reflexivity].
  apply call_same_config in Hcall as (Hc & _ & Hm & _).
  cbn [mbind result_bind].
  destruct (set_key cmd) as [k|].
  - unfold attr. destruct (_set_env_vars self1) as [vars|]; [|reflexivity].
    cbn [mbind result_bind]. apply IH; cbn; congruence.
  - cbn [mbind result_bind]. apply IH; congruence.
Qed.

End SequenceJoin.

(** Sequence values in the interpreters that join them.  For [SH], [CSH]
    and the live executor, with [seps]
    the separator map of the interpreter: a command whose value is a
    sequence is emitted or applied as the same command with the sequence
    joined by the separator of its key, and so is a whole log. *)
Theorem sequence_join_equivalence (os_pathsep : string)
    (list2cmdline : list string -> string) (self : interpreter)
    (seps : gmap string string) :
  cls self ≠ WinShell ->
  _env_sep_map self = Some seps ->
  let joined := join_sequence (fun k => default os_pathsep (seps !! k)) in
  (forall cmd,
     call os_pathsep list2cmdline self (joined cmd) = call os_pathsep list2cmdline self cmd)
  ∧ (forall log,
       CommandInterpreter__execute os_pathsep list2cmdline self (map joined log)
       = CommandInterpreter__execute os_pathsep list2cmdline self log)
  ∧ (forall log,
       Python__execute os_pathsep list2cmdline self (map joined log)
       = Python__execute os_pathsep list2cmdline self log).
Proof.
  intros Hcls Hseps joined. split; [|split].
  - intros cmd. now apply call_join_sequence.
  - intros log. unfold CommandInterpreter__execute, joined.
    now rewrite execute_loop_join_sequence.
  - intros log. unfold Python__execute, CommandInterpreter__execute, joined.
    now rewrite execute_loop_join_sequence.
Qed.

Lemma sequence_join_equivalence_witness :
  let self := CommandInterpreter___init__ SH false (Some DEFAULT_ENV_SEP_MAP) in
  call ":" (fun _ => EmptyString) self (Setenv "CMAKE_MODULE_PATH" (PStr "a;b"))
  = call ":" (fun _ => EmptyString) self (Setenv "CMAKE_MODULE_PATH" (PList ["a"; "b"]))
  ∧ CommandInterpreter__execute ":" (fun _ => EmptyString) self
      [Setenv "X" (PStr "a"); Prependenv "X" (PStr "b:c")]
    = CommandInterpreter__execute ":" (fun _ => EmptyString) self
        [Setenv "X" (PStr "a"); Prependenv "X" (PList ["b"; "c"])].
Proof.
  intros self.
  destruct (sequence_join_equivalence ":" (fun _ => EmptyString) self DEFAULT_ENV_SEP_MAP)
    as (Hcall & Hlog & _); [discriminate | reflexivity |].
  split.
  - exact (Hcall (Setenv "CMAKE_MODULE_PATH" (PList ["a"; "b"]))).
  - exact (Hlog [Setenv "X" (PStr "a"); Prependenv "X" (PList ["b"; "c"])]).
Defined.

(** C9 at the failing input.  The [setenv] of the Windows interpreter does
    not join: it calls [replace] on the value, which a sequence does not
    have, while the joined string is emitted. *)
Theorem sequence_join_winshell :
  call ";" (fun _ => EmptyString) (WinShell___init__ false) (Setenv "X" (PList ["a"; "b"]))
  = Raise (AttributeError "replace")
  ∧ call ";" (fun _ => EmptyString) (WinShell___init__ false)
      (Setenv "X" (PStr (Str.join ";" ["a"; "b"])))
    = Ok (WinShell___init__ false, Some ("set X=a;b" +:+ nl)).
Proof. split; reflexivity. Qed.

(** * Further properties *)

(** ** The attribute namespace *)

(** Insertion, then lookup: a key that [__setitem__] accepts resolves to the
    value stored, whatever the map held before. *)
Theorem setitem_then_getitem {V : Type} `{PyObject V}
    (data data' : gmap string V) (key value : V) (k : string) :
  py_basestring key = Some k ->
  AttrDict___setitem__ data key value = Ok data' ->
  AttrDict___getitem__ data' k = Ok value.
Proof.
  unfold AttrDict___setitem__. intros -> Hset.
  destruct (ATTR_REG_match k); [|discriminate]. injection Hset as <-.
  apply getitem_stored. apply lookup_insert_eq.
Qed.

Lemma setitem_then_getitem_witness :
  AttrDict___getitem__ (<["machine.os" := PStr "Linux"]> (∅ : gmap string pyval)) "machine.os"
  = Ok (PStr "Linux").
Proof.
  apply (setitem_then_getitem ∅ _ (PStr "machine.os") (PStr "Linux") "machine.os");
    reflexivity.
Defined.

(** One segment after a stored key is an attribute of the stored value. *)
Theorem attribute_of_stored_key {V : Type} `{PyObject V}
    (data : gmap string V) (key attr : string) (x y : V) :
  Str.contains "." attr = false ->
  data !! key = Some x ->
  data !! (key +:+ "." +:+ attr) = None ->
  py_getattr x attr = Some y ->
  AttrDict___getitem__ data (key +:+ "." +:+ attr) = Ok y.
Proof. apply getitem_attribute. Qed.

Lemma attribute_of_stored_key_witness :
  AttrDict___getitem__
    ({[ "machine" := PObj "<machine>" [("os", PStr "Linux")] ]} : gmap string pyval)
    ("machine" +:+ "." +:+ "os")
  = Ok (PStr "Linux").
Proof.
  apply (attribute_of_stored_key _ "machine" "os" (PObj "<machine>" [("os", PStr "Linux")]));
    vm_compute; reflexivity.
Defined.

(** Two segments after a stored key: the loop over the popped segments
    takes the last segment first, so [key.first.second] is the attribute
    [first] of the attribute [second] of the stored value. *)
Theorem attributes_walked_last_first {V : Type} `{PyObject V}
    (data : gmap string V) (key first second : string) (x z y : V) :
  Str.contains "." first = false ->
  Str.contains "." second = false ->
  data !! key = Some x ->
  data !! (key +:+ "." +:+ first) = None ->
  data !! ((key +:+ "." +:+ first) +:+ "." +:+ second) = None ->
  py_getattr x second = Some z ->
  py_getattr z first = Some y ->
  AttrDict___getitem__ data ((key +:+ "." +:+ first) +:+ "." +:+ second) = Ok y.
Proof.
  intros Hfirst Hsecond Hx Hnone1 Hnone2 Hz Hy. unfold AttrDict___getitem__.
  rewrite !split_go_dot_append by assumption.
  rewrite !rev_unit. cbn [probe rev]. rewrite rev_involutive.
  rewrite <- app_assoc. cbn [app].
  assert (Hparts : Str.split_go "." 0 "" key ≠ []) by apply split_go_nonempty.
  assert (Hjoin1 : Str.join "." (Str.split_go "." 0 "" key ++ [first])
                   = key +:+ "." +:+ first).
  { rewrite join_snoc by exact Hparts. now rewrite join_split by discriminate. }
  assert (Hjoin2 : Str.join "." (Str.split_go "." 0 "" key ++ [first; second])
                   = (key +:+ "." +:+ first) +:+ "." +:+ second).
  { change [first; second] with ([first] ++ [second]). rewrite app_assoc.
    rewrite join_snoc by (destruct (Str.split_go "." 0 "" key); discriminate).
    now rewrite Hjoin1. }
  rewrite Hjoin2, Hnone2, Hjoin1, Hnone1.
  destruct (rev (Str.split_go "." 0 "" key)) as [|p rest] eqn:Hrev.
  - apply (f_equal (@rev string)) in Hrev. rewrite rev_involutive in Hrev. contradiction.
  - cbn [probe]. rewrite <- Hrev, rev_involutive, join_split by discriminate.
    rewrite Hx. cbn [walk app]. now rewrite Hz, Hy.
Qed.

Lemma attributes_walked_last_first_witness :
  AttrDict___getitem__
    ({[ "a" := PObj "<x>" [("c", PObj "<z>" [("b", PStr "y")])] ]} : gmap string pyval)
    (("a" +:+ "." +:+ "b") +:+ "." +:+ "c")
  = Ok (PStr "y").
Proof.
  apply (attributes_walked_last_first _ "a" "b" "c"
           (PObj "<x>" [("c", PObj "<z>" [("b", PStr "y")])])
           (PObj "<z>" [("b", PStr "y")]));
    vm_compute; reflexivity.
Defined.

Lemma walk_raises {V : Type} `{PyObject V} (key : string) (attrs : list string) :
  forall (res : V) e, walk key res attrs = Raise e -> e = KeyError key.
Proof.
  induction attrs as [|attr attrs IH]; intros res e; cbn [walk]; [discriminate|].
  destruct (py_getattr res attr); [apply IH | now intros [= <-]].
Qed.

Lemma getitem_raises {V : Type} `{PyObject V} (data : gmap string V) (key : string) e :
  AttrDict___getitem__ data key = Raise e -> e = KeyError key.
Proof.
  unfold AttrDict___getitem__.
  destruct (probe data (rev (Str.split_go "." 0 "" key)) []) as [[found attrs]|].
  - apply walk_raises.
  - now intros [= <-].
Qed.

(** A lookup fails in one way only: with the unknown-key error that carries
    the key asked for, also when it is an attribute that is missing. *)
Theorem getitem_fails_with_KeyError {V : Type} `{PyObject V}
    (data : gmap string V) (key : string) (e : exn) :
  AttrDict___getitem__ data key = Raise e -> e = KeyError key.
Proof. apply getitem_raises. Qed.

Lemma getitem_fails_with_KeyError_witness :
  KeyError "thing.missing" = KeyError "thing.missing".
Proof.
  apply (getitem_fails_with_KeyError
           ({[ "thing" := PObj "<t>" [] ]} : gmap string pyval) "thing.missing").
  vm_compute. reflexivity.
Defined.

(** ** Expansion *)

Lemma CustomExpand_pattern_match prev s mo :
  Template.CustomExpand_pattern prev s = Some mo ->
  exists name, Template.braced mo = Some name
               ∧ Template.named mo = None ∧ Template.escaped mo = None.
Proof.
  unfold Template.CustomExpand_pattern. intros Hpat.
  assert (Hbody : match s with
                  | String "{" inner =>
                      match Re.before true ATTR_REG_STR "}" inner with
                      | Some n =>
                          Some {| Template.group0 := "{" +:+ Str.take n inner +:+ "}";
                                  Template.escaped := None; Template.named := None;
                                  Template.braced := Some (Str.take n inner);
                                  Template.invalid := None |}
                      | None => None
                      end
                  | _ => None
                  end = Some mo).
  { destruct prev as [p|]; [|exact Hpat].
    destruct p as [[] [] [] [] [] [] [] []]; try exact Hpat; discriminate. }
  clear Hpat. destruct s as [|c inner]; [discriminate|].
  destruct (Ascii.eqb_spec c "{") as [->|Hc].
  - destruct (Re.before true ATTR_REG_STR "}" inner); [|discriminate].
    injection Hbody as <-. cbn. eauto.
  - exfalso. destruct c as [[] [] [] [] [] [] [] []]; try discriminate. now destruct Hc.
Qed.

Lemma CustomExpand_convert_total `{PyObject V} (data : gmap string V) prev s mo :
  Template.CustomExpand_pattern prev s = Some mo ->
  exists r, Template.convert "!"
              (fun name => v ← AttrDict___getitem__ data name; Ok (py_format v)) mo = Ok r.
Proof.
  intros Hpat. apply CustomExpand_pattern_match in Hpat as (name & Hb & Hn & _).
  unfold Template.convert. rewrite Hn, Hb.
  destruct (AttrDict___getitem__ data name) as [v|e] eqn:Hget; cbn; [eauto|].
  apply getitem_raises in Hget as ->. eauto.
Qed.

Lemma expand_total (vars : gmap string pyval) (s : string) :
  exists r, expand vars s = Ok r.
Proof.
  unfold expand, CustomExpand_safe_substitute, Template.safe_substitute.
  apply sub_total. intros prev t mo. apply CustomExpand_convert_total.
Qed.

(** The custom-template expansion returns for every namespace and every
    text: a name that does not resolve is no failure. *)
Theorem expand_never_fails (vars : gmap string pyval) (s : string) :
  exists r, expand vars s = Ok r.
Proof. apply expand_total. Qed.

(** The env-template expansion of the live executor returns for every
    environment mapping and every text. *)
Theorem env_expand_never_fails (self : interpreter)
    (environ : gmap string string) (s : string) :
  _environ self = Some environ ->
  exists r, Python__expand self (PStr s) = Ok r.
Proof.
  intros Henv. unfold Python__expand. rewrite Henv. cbn. apply EnvExpand_total.
Qed.

Lemma env_expand_never_fails_witness :
  exists r, Python__expand (Python___init__ true ∅) (PStr "$HOME/${x") = Ok r.
Proof.
  apply (env_expand_never_fails (Python___init__ true ∅) ∅ "$HOME/${x"). reflexivity.
Defined.

Lemma sub_guarded conv s : forall prev,
  dollar_guarded prev s = true ->
  Template.sub Template.CustomExpand_pattern conv prev 0 s = Ok s.
Proof.
  induction s as [|c s IH]; intros prev Hguard; [reflexivity|].
  cbn [dollar_guarded] in Hguard. apply andb_prop in Hguard as [Hhere Hrest].
  cbn [Template.sub].
  assert (Hnone : Template.CustomExpand_pattern prev (String c s) = None).
  { destruct (Ascii.eqb_spec c "{") as [->|Hc]; [|now apply CustomExpand_pattern_head].
    cbn in Hhere. destruct prev as [p|]; [|discriminate].
    apply Ascii.eqb_eq in Hhere as ->. reflexivity. }
  rewrite Hnone. now rewrite (IH (Some c) Hrest).
Qed.

(** Env-forms survive recording: a text in which every [{] comes right
    after a [$] is left unchanged by the custom-template expansion, whatever
    the namespace holds. *)
Theorem expand_keeps_env_forms (vars : gmap string pyval) (s : string) :
  dollar_guarded None s = true -> expand vars s = Ok s.
Proof.
  intros Hguard. unfold expand, CustomExpand_safe_substitute, Template.safe_substitute.
  now apply sub_guarded.
Qed.

Lemma expand_keeps_env_forms_witness :
  expand {[ "APP" := PStr "maya" ]} "${APP}/bin:$PATH" = Ok "${APP}/bin:$PATH".
Proof. apply (expand_keeps_env_forms _ "${APP}/bin:$PATH"). reflexivity. Defined.








(** ** The recorder and the routing namespace *)

Ltac peel_name m :=
  destruct m as [|[[] [] [] [] [] [] [] []] m];
  try (right; intros; reflexivity);
  try (left; vm_compute; tauto).

(** A name that is no public method of the recorder cannot be called. *)
Lemma call_recorder_names (meth : string) :
  In meth recorder_methods
  ∨ forall store self args, call_recorder store self meth args = Raise (TypeError "arguments").
Proof. do 15 (try peel_name meth). Qed.

Lemma handle_method_names (meth : string) :
  In meth ["set"; "prepend"; "append"; "unset"]
  ∨ forall g name args,
      EnvironmentVariable_call g name meth args = Raise (AttributeError meth).
Proof. do 8 (try peel_name meth). Qed.

Lemma call_recorder_effect store self meth args self' :
  call_recorder store self meth args = Ok self' ->
  (exists cmd, self' = append_command self cmd ∧ name cmd = meth)
  ∨ (meth = "reset_commands" ∧ self' = reset_commands self)
  ∨ (meth = "get_commands" ∧ self' = self).
Proof.
  intros Hcall. destruct (call_recorder_names meth) as [Hin|Hnone];
    [|now rewrite Hnone in Hcall].
  unfold recorder_methods in Hin. cbn [In] in Hin.
  repeat (destruct Hin as [<-|Hin]); try contradiction;
    destruct args as [|a [|b [|c rest]]]; cbn in Hcall; try discriminate;
    try (destruct a; cbn in Hcall; try discriminate);
    unfold setenv, unsetenv, prependenv, appendenv, alias, info, error, command_, comment,
      source, record1, record2, mbind, result_bind in Hcall;
    try (injection Hcall as <-; eauto);
    repeat match type of Hcall with
           | context [match ?x with _ => _ end] => destruct x; try discriminate
           end;
    try (injection Hcall as <-); eauto 6.
Qed.

(** A call of a recorder method that returns has appended one command,
    whose name (the selector the interpreters dispatch on) is the name of
    the method, or it was [reset_commands] and emptied the log, or
    [get_commands] and changed nothing. *)
Theorem recorder_call_effect (store : gmap string pyval) (self self' : CommandRecorder)
    (meth : string) (args : list pyval) :
  call_recorder store self meth args = Ok self' ->
  (exists cmd, commands self' = commands self ++ [cmd] ∧ name cmd = meth)
  ∨ (meth = "reset_commands" ∧ commands self' = [])
  ∨ (meth = "get_commands" ∧ self' = self).
Proof.
  intros Hcall. apply call_recorder_effect in Hcall as [(cmd & -> & Hname)|[[-> ->]|[-> ->]]].
  - left. exists cmd. split; [reflexivity | exact Hname].
  - right. left. split; reflexivity.
  - right. right. split; reflexivity.
Qed.

Lemma recorder_call_effect_witness :
  (exists cmd, commands (append_command CommandRecorder___init__ (Info (PStr "hello")))
               = commands CommandRecorder___init__ ++ [cmd] ∧ name cmd = "info")
  ∨ ("info" = "reset_commands"
     ∧ commands (append_command CommandRecorder___init__ (Info (PStr "hello"))) = [])
  ∨ ("info" = "get_commands"
     ∧ append_command CommandRecorder___init__ (Info (PStr "hello")) = CommandRecorder___init__).
Proof.
  apply (recorder_call_effect ∅ CommandRecorder___init__ _ "info" [PStr "hello"]).
  reflexivity.
Defined.

Lemma handle_call_effect g name meth args g' :
  EnvironmentVariable_call g name meth args = Ok g' ->
  vars g' = vars g
  ∧ _var_cache g' = _var_cache g
  ∧ exists cmd, commands (command_recorder g') = commands (command_recorder g) ++ [cmd]
                ∧ (cmd = Unsetenv name ∨ set_key cmd = Some name).
Proof.
  intros Hcall. destruct (handle_method_names meth) as [Hin|Hnone];
    [|now rewrite Hnone in Hcall].
  cbn [In] in Hin.
  repeat (destruct Hin as [<-|Hin]); try contradiction;
    destruct args as [|a [|b rest]]; cbn in Hcall; try discriminate;
    unfold setenv, unsetenv, prependenv, appendenv, record2, mbind, result_bind in Hcall;
    try (destruct (CommandRecorder__expand (vars g) (command_recorder g) a) as [v|];
         [|discriminate]);
    injection Hcall as <-; cbn; repeat split; eauto.
Qed.

(** What one statement of a script does to the command log: it leaves it,
    or appends one command at the end, or it is a call of a name bound to
    [reset_commands] and empties it.  Nothing is reordered or merged. *)
Theorem statement_effect_on_log (g g' : RoutingDict) (st : stmt) :
  exec_stmt g st = Ok g' ->
  commands (command_recorder g') = commands (command_recorder g)
  ∨ (exists cmd, commands (command_recorder g') = commands (command_recorder g) ++ [cmd])
  ∨ (commands (command_recorder g') = []
     ∧ exists func args, st = Call func args
                         ∧ vars g !! func = Some (PMethod "reset_commands")).
Proof.
  destruct st as [target value|func args|target meth args]; cbn [exec_stmt].
  - unfold RoutingDict___setitem__. destruct (ALL_CAPS_match target).
    + unfold EnvironDict___setitem__, EnvironDict___getitem__. intros Hcall.
      apply handle_call_effect in Hcall as (_ & _ & cmd & Hcmd & _). right. left. eauto.
    + unfold mbind, result_bind. destruct (py_basestring value) as [text|].
      * destruct (expand (vars g) text); [|discriminate]. intros [= <-]. now left.
      * intros [= <-]. now left.
  - unfold RoutingDict___getitem__. destruct (ALL_CAPS_match func); [discriminate|].
    destruct (vars g !! func) as [f|] eqn:Hf; [|discriminate]. cbn [mbind result_bind].
    destruct f as [| | |meth|]; try discriminate. unfold mbind, result_bind.
    destruct (call_recorder (vars g) (command_recorder g) meth args) as [rec|] eqn:Hcall;
      [|discriminate].
    intros [= <-]. cbn [with_recorder command_recorder].
    apply call_recorder_effect in Hcall as [(cmd & -> & _)|[[-> ->]|[_ ->]]].
    + right. left. eauto.
    + right. right. split; [reflexivity|]. eauto.
    + now left.
  - unfold RoutingDict___getitem__. destruct (ALL_CAPS_match target).
    + unfold EnvironDict___getitem__. cbn [mbind result_bind]. intros Hcall.
      apply handle_call_effect in Hcall as (_ & _ & cmd & Hcmd & _). right. left. eauto.
    + destruct (vars g !! target) as [obj|]; [|discriminate]. cbn [mbind result_bind].
      destruct obj as [| |shown attrs| |handle];
        cbn [py_getattr pyval_object]; try discriminate.
      * destruct (assoc meth attrs); discriminate.
      * intros Hcall.
        apply handle_call_effect in Hcall as (_ & _ & cmd & Hcmd & _). right. left. eauto.
Qed.

Lemma statement_effect_on_log_witness :
  let g := RoutingDict___init__ ∅ in
  let g' := with_recorder g (append_command (command_recorder g) (Info (PStr "hello"))) in
  commands (command_recorder g') = commands (command_recorder g)
  ∨ (exists cmd, commands (command_recorder g') = commands (command_recorder g) ++ [cmd])
  ∨ (commands (command_recorder g') = []
     ∧ exists func args, Call "info" [PStr "hello"] = Call func args
                         ∧ vars g !! func = Some (PMethod "reset_commands")).
Proof.
  intros g g'.
  apply (statement_effect_on_log g g' (Call "info" [PStr "hello"])).
  reflexivity.
Defined.

(** An all-capitals name always resolves to its handle, whatever the
    variable scope binds, and an assignment to it leaves the variable scope
    alone and records one SETENV of that name.  The assignment,
    [NAME.set(value)] and [setenv("NAME", value)] record the same log. *)
Theorem caps_name_is_environment (g : RoutingDict) (key : string) (value : pyval) :
  ALL_CAPS_match key = true ->
  vars g !! "setenv" = Some (PMethod "setenv") ->
  (exists g1, RoutingDict___getitem__ g key = Ok (g1, PEnvVar key) ∧ vars g1 = vars g)
  ∧ exec_stmt g (MethodCall key "set" [value]) = exec_stmt g (Assign key value)
  ∧ ((fun g' => commands (command_recorder g'))
       <$> exec_stmt g (Call "setenv" [PStr key; value])
     = (fun g' => commands (command_recorder g')) <$> exec_stmt g (Assign key value))
  ∧ forall g', exec_stmt g (Assign key value) = Ok g' ->
      vars g' = vars g
      ∧ exists recorded,
          commands (command_recorder g')
          = commands (command_recorder g) ++ [Setenv key recorded].
Proof.
  intros Hcaps Hsetenv. split; [|split; [|split]].
  - unfold RoutingDict___getitem__. rewrite Hcaps. eexists. split; reflexivity.
  - cbn [exec_stmt]. unfold RoutingDict___getitem__, RoutingDict___setitem__.
    rewrite Hcaps. reflexivity.
  - cbn [exec_stmt]. unfold RoutingDict___getitem__, RoutingDict___setitem__.
    rewrite Hcaps. change (ALL_CAPS_match "setenv") with false. rewrite Hsetenv. cbn.
    unfold EnvironDict___setitem__. cbn. unfold setenv, record2, mbind, result_bind.
    destruct (CommandRecorder__expand (vars g) (command_recorder g) value); reflexivity.
  - intros g' Hassign.
    cbn [exec_stmt] in Hassign. unfold RoutingDict___setitem__ in Hassign.
    rewrite Hcaps in Hassign. unfold EnvironDict___setitem__ in Hassign. cbn in Hassign.
    unfold setenv, record2, mbind, result_bind in Hassign.
    destruct (CommandRecorder__expand (vars g) (command_recorder g) value) as [v|];
      [|discriminate].
    injection Hassign as <-. split; [reflexivity|]. exists v. reflexivity.
Qed.

Lemma caps_name_is_environment_witness :
  let g := RoutingDict___init__ {[ "PATH" := PStr "hidden" ]} in
  (exists g1, RoutingDict___getitem__ g "PATH" = Ok (g1, PEnvVar "PATH") ∧ vars g1 = vars g)
  ∧ exec_stmt g (MethodCall "PATH" "set" [PStr "/bin"])
    = exec_stmt g (Assign "PATH" (PStr "/bin")).
Proof.
  intros g.
  destruct (caps_name_is_environment g "PATH" (PStr "/bin")) as (Hget & Hset & _);
    [reflexivity | reflexivity |].
  split; [exact Hget | exact Hset].
Defined.

(** A name that is not all capitals is a local: assigning a string stores
    its custom-template expansion, records nothing, and a lookup of the
    name then returns what was stored. *)
Theorem local_assignment_stored (g : RoutingDict) (key text : string) :
  ALL_CAPS_match key = false ->
  exists expanded g',
    expand (vars g) text = Ok expanded
    ∧ RoutingDict___setitem__ g key (PStr text) = Ok g'
    ∧ RoutingDict___getitem__ g' key = Ok (g', PStr expanded)
    ∧ command_recorder g' = command_recorder g.
Proof.
  intros Hlocal. destruct (expand_total (vars g) text) as [expanded Hexp].
  exists expanded. eexists. split; [exact Hexp|].
  unfold RoutingDict___setitem__, RoutingDict___getitem__. rewrite Hlocal.
  cbn [py_basestring pyval_object mbind result_bind]. rewrite Hexp.
  cbn [mbind result_bind]. split; [reflexivity|]. cbn [vars command_recorder].
  rewrite lookup_insert_eq. split; reflexivity.
Qed.

Lemma local_assignment_stored_witness :
  exists expanded g',
    expand (vars (RoutingDict___init__ {[ "V1" := PStr "1" ]})) "{V1}.0" = Ok expanded
    ∧ RoutingDict___setitem__ (RoutingDict___init__ {[ "V1" := PStr "1" ]}) "short"
        (PStr "{V1}.0") = Ok g'
    ∧ RoutingDict___getitem__ g' "short" = Ok (g', PStr expanded)
    ∧ command_recorder g' = command_recorder (RoutingDict___init__ {[ "V1" := PStr "1" ]}).
Proof.
  apply (local_assignment_stored (RoutingDict___init__ {[ "V1" := PStr "1" ]})
           "short" "{V1}.0").
  reflexivity.
Defined.

(** ** Running a log *)

Section LoopFacts.
Variable os_pathsep : string.
Variable list2cmdline : list string -> string.


Lemma execute_loop_set log : forall self lines self1 lines1 vars,
  _set_env_vars self = Some vars ->
  execute_loop os_pathsep list2cmdline self lines log = Ok (self1, lines1) ->
  _set_env_vars self1 = Some (list_to_set (omap set_key log) ∪ vars).
Proof.
  induction log as [|cmd log IH]; intros self lines self1 lines1 vars Hvars Hloop.
  - simpl in Hloop. injection Hloop as <- <-. rewrite Hvars. f_equal.
    cbn [omap list_omap list_to_set]. now rewrite (left_id_L ∅ (∪)).
  - apply execute_loop_step in Hloop as (s1 & res & s2 & Hcall & Hset & Hrest).
    apply call_same_config in Hcall as (_ & _ & _ & Hv & _). rewrite Hvars in Hv.
    cbn [omap list_omap]. destruct (set_key cmd) as [k|].
    + destruct Hset as (vars0 & Hvars0 & ->).
      assert (vars0 = vars) as -> by congruence.
      rewrite (IH (with_set_env_vars s1 ({[k]} ∪ vars)) _ _ _ ({[k]} ∪ vars) eq_refl Hrest).
      f_equal. cbn [list_to_set].
      rewrite (comm_L (∪) {[k]} (list_to_set (omap set_key log))).
      now rewrite <- (assoc_L (∪)).
    + subst s2. exact (IH _ _ _ _ vars Hv Hrest).
Qed.

Lemma execute_loop_lines log : forall self lines self1 lines1,
  execute_loop os_pathsep list2cmdline self lines log = Ok (self1, lines1) ->
  exists out, lines1 = lines ++ out ∧ length out <= length log.
Proof.
  induction log as [|cmd log IH]; intros self lines self1 lines1 Hloop.
  - simpl in Hloop. injection Hloop as <- <-. exists []. split; [now rewrite app_nil_r | reflexivity].
  - apply execute_loop_step in Hloop as (s1 & res & s2 & _ & _ & Hrest).
    apply IH in Hrest as (out & -> & Hlen). destruct res as [line|].
    + exists (line :: out). split; [now rewrite <- app_assoc | simpl; lia].
    + exists out. split; [reflexivity | simpl; lia].
Qed.

End LoopFacts.


(** What a run keeps: the class, the policy flag, the separator map; the
    lines emitted before stay in front; and the set of already-set
    variables ends as the set at the start with the keys of the SETENV,
    PREPENDENV and APPENDENV commands of the log added.  An UNSETENV takes
    no key out of it. *)
Theorem run_invariants (os_pathsep : string) (list2cmdline : list string -> string)
    (self self1 : interpreter) (lines lines1 : list string) (log : list command)
    (vars : gset string) :
  _set_env_vars self = Some vars ->
  execute_loop os_pathsep list2cmdline self lines log = Ok (self1, lines1) ->
  cls self1 = cls self
  ∧ _respect_parent_env self1 = _respect_parent_env self
  ∧ _env_sep_map self1 = _env_sep_map self
  ∧ _set_env_vars self1 = Some (list_to_set (omap set_key log) ∪ vars)
  ∧ exists out, lines1 = lines ++ out ∧ length out <= length log.
Proof.
  intros Hvars Hloop.
  destruct (execute_loop_config _ _ _ _ _ _ _ Hloop) as (Hc & Hr & Hm & _).
  repeat split; try assumption.
  - eapply execute_loop_set; eauto.
  - eapply execute_loop_lines; eauto.
Qed.

Lemma run_invariants_witness :
  let self := CommandInterpreter___init__ SH false None in
  let self1 := with_set_env_vars self ({["X"]} ∪ ∅) in
  _set_env_vars self1 = Some (list_to_set (omap set_key [Setenv "X" (PStr "a"); Unsetenv "X"]) ∪ ∅)
  ∧ exists out, ["export X=" +:+ dq +:+ "a" +:+ dq; "unset X"] = [] ++ out ∧ length out <= 2.
Proof.
  intros self self1.
  destruct (run_invariants ":" (fun _ => EmptyString) self self1 []
              ["export X=" +:+ dq +:+ "a" +:+ dq; "unset X"]
              [Setenv "X" (PStr "a"); Unsetenv "X"] ∅ eq_refl eq_refl)
    as (_ & _ & _ & Hset & Hout).
  split; [exact Hset | exact Hout].
Defined.

(** ** The policy for a variable not set before *)

(** With the policy flag off, a PREPENDENV or APPENDENV of a variable that
    the run has not set is handled as the SETENV of the same key and value,
    by the two emitters and by the live executor. *)
Theorem policy_off_promotes_to_setenv (os_pathsep : string)
    (list2cmdline : list string -> string) (self : interpreter) (vars : gset string)
    (key : string) (value : pyval) :
  cls self ≠ WinShell ->
  _respect_parent_env self = Some false ->
  _set_env_vars self = Some vars ->
  key ∉ vars ->
  call os_pathsep list2cmdline self (Prependenv key value)
  = call os_pathsep list2cmdline self (Setenv key value)
  ∧ call os_pathsep list2cmdline self (Appendenv key value)
    = call os_pathsep list2cmdline self (Setenv key value).
Proof.
  intros Hcls Hpolicy Hvars Hkey. unfold call.
  destruct (cls self); try congruence;
    unfold SH_prependenv, SH_appendenv, SH_setenv, CSH_prependenv, CSH_appendenv, CSH_setenv,
      Python_prependenv, Python_appendenv, Python_setenv, Python_extends, Python__expand,
      join_value, _env_sep, emits, mutates;
    rewrite Hpolicy, Hvars; cbn [attr mbind result_bind negb];
    rewrite bool_decide_eq_false_2 by exact Hkey;
    destruct value; destruct (_env_sep_map self); destruct (_environ self);
    cbn [attr mbind result_bind negb]; split; try reflexivity;
    match goal with
    | |- context [EnvExpand_safe_substitute ?e ?s] =>
        destruct (EnvExpand_safe_substitute e s); reflexivity
    end.
Qed.

Lemma policy_off_promotes_to_setenv_witness :
  let self := CommandInterpreter___init__ SH false None in
  call ":" (fun _ => EmptyString) self (Prependenv "P" (PList ["a"; "b"]))
  = call ":" (fun _ => EmptyString) self (Setenv "P" (PList ["a"; "b"]))
  ∧ call ":" (fun _ => EmptyString) self (Appendenv "P" (PList ["a"; "b"]))
    = call ":" (fun _ => EmptyString) self (Setenv "P" (PList ["a"; "b"])).
Proof.
  intros self.
  apply (policy_off_promotes_to_setenv ":" (fun _ => EmptyString) self ∅ "P");
    [discriminate | reflexivity | reflexivity | apply not_elem_of_empty].
Defined.

(** ** Reuse after a reset *)

Lemma with_set_env_vars_reset self vars : _reset (with_set_env_vars self vars) = _reset self.
Proof. reflexivity. Qed.

Lemma execute_loop_reset os_pathsep list2cmdline log : forall self lines self1 lines1,
  cls self ≠ Python ->
  execute_loop os_pathsep list2cmdline self lines log = Ok (self1, lines1) ->
  _reset self1 = _reset self.
Proof.
  induction log as [|cmd log IH]; intros self lines self1 lines1 Hcls Hloop.
  - simpl in Hloop. now injection Hloop as <- <-.
  - apply execute_loop_step in Hloop as (s1 & res & s2 & Hcall & Hset & Hrest).
    apply call_shell_pure in Hcall as ->; [|exact Hcls].
    destruct (set_key cmd) as [k|].
    + destruct Hset as (vars0 & _ & ->).
      rewrite (IH (with_set_env_vars self ({[k]} ∪ vars0)) _ _ _ Hcls Hrest).
      apply with_set_env_vars_reset.
    + subst s2. exact (IH _ _ _ _ Hcls Hrest).
Qed.

(** An emitter that has run a log and is then reset is the object it was
    before the run, reset: what it gives for the next log does not depend
    on the log it ran before. *)
Theorem reset_forgets_the_run (os_pathsep : string) (list2cmdline : list string -> string)
    (self self1 : interpreter) (lines lines1 : list string) (log next : list command) :
  cls self ≠ Python ->
  execute_loop os_pathsep list2cmdline self lines log = Ok (self1, lines1) ->
  _reset self1 = _reset self
  ∧ CommandInterpreter__execute os_pathsep list2cmdline (_reset self1) next
    = CommandInterpreter__execute os_pathsep list2cmdline (_reset self) next.
Proof.
  intros Hcls Hloop.
  assert (Hreset : _reset self1 = _reset self) by (eapply execute_loop_reset; eauto).
  split; [exact Hreset | now rewrite Hreset].
Qed.

Lemma reset_forgets_the_run_witness :
  let self := CommandInterpreter___init__ SH true None in
  let self1 := with_set_env_vars self ({["X"]} ∪ ∅) in
  _reset self1 = _reset self
  ∧ CommandInterpreter__execute ":" (fun _ => EmptyString) (_reset self1)
      [Prependenv "X" (PStr "b")]
    = CommandInterpreter__execute ":" (fun _ => EmptyString) (_reset self)
        [Prependenv "X" (PStr "b")].
Proof.
  intros self self1.
  apply (reset_forgets_the_run ":" (fun _ => EmptyString) self self1 []
           ["export X=" +:+ dq +:+ "a" +:+ dq] [Setenv "X" (PStr "a")]);
    [discriminate | reflexivity].
Defined.

(** ** The emitters return for every command they have a method for *)

Section Emitters.
Variable os_pathsep : string.
Variable list2cmdline : list string -> string.



End Emitters.



(** ** The live executor *)

Section LiveExecutor.
Variable os_pathsep : string.
Variable self : interpreter.
Variable seps : gmap string string.
Variable environ : gmap string string.
Variable key : string.
Hypothesis self_seps : _env_sep_map self = Some seps.
Hypothesis self_environ : _environ self = Some environ.

Lemma python_join_value value :
  string_or_sequence value ->
  join_value os_pathsep self key value
  = Ok (PStr (value_text (default os_pathsep (seps !! key)) value)).
Proof.
  intros Hvalue. unfold join_value, _env_sep. rewrite self_seps.
  destruct value; try contradiction; reflexivity.
Qed.

Lemma python_extend value old :
  string_or_sequence value ->
  default os_pathsep (seps !! key) ≠ EmptyString ->
  Python_extends self key = Ok true ->
  environ !! key = Some old ->
  exists expanded,
    EnvExpand_safe_substitute environ
      (value_text (default os_pathsep (seps !! key)) value) = Ok expanded
    ∧ Python_prependenv os_pathsep self key value
      = Ok (with_environ self
              (<[key := expanded +:+ default os_pathsep (seps !! key) +:+ old]> environ))
    ∧ Python_appendenv os_pathsep self key value
      = Ok (with_environ self
              (<[key := old +:+ default os_pathsep (seps !! key) +:+ expanded]> environ)).
Proof.
  intros Hvalue Hsep Hext Hold.
  set (sep := default os_pathsep (seps !! key)) in *.
  destruct (EnvExpand_total environ (value_text sep value)) as [expanded Hexp].
  exists expanded. split; [exact Hexp|].
  assert (Hparts : Python__get_env_list os_pathsep self key
                   = Ok (Str.split_go sep 0 EmptyString old)).
  { unfold Python__get_env_list, _env_sep. rewrite self_environ, self_seps.
    cbn [attr mbind result_bind]. rewrite Hold.
    fold sep. unfold Str.split. destruct sep; [congruence | reflexivity]. }
  unfold Python_prependenv, Python_appendenv.
  rewrite python_join_value by exact Hvalue. fold sep. cbn [mbind result_bind].
  unfold Python__expand. rewrite self_environ. cbn [mbind result_bind attr]. rewrite Hexp.
  cbn [mbind result_bind]. rewrite Hext. cbn [mbind result_bind]. rewrite Hparts.
  cbn [mbind result_bind].
  unfold Python__set_env_list, _env_sep. rewrite self_environ, self_seps.
  cbn [mbind result_bind attr]. fold sep.
  rewrite join_cons by apply split_go_nonempty.
  rewrite join_snoc by apply split_go_nonempty.
  rewrite join_split by exact Hsep. split; reflexivity.
Qed.

Lemma python_override value :
  string_or_sequence value ->
  Python_extends self key = Ok false ->
  exists expanded,
    EnvExpand_safe_substitute environ
      (value_text (default os_pathsep (seps !! key)) value) = Ok expanded
    ∧ Python_prependenv os_pathsep self key value
      = Ok (with_environ self (<[key := expanded]> environ))
    ∧ Python_appendenv os_pathsep self key value
      = Ok (with_environ self (<[key := expanded]> environ)).
Proof.
  intros Hvalue Hext.
  set (sep := default os_pathsep (seps !! key)) in *.
  destruct (EnvExpand_total environ (value_text sep value)) as [expanded Hexp].
  exists expanded. split; [exact Hexp|].
  unfold Python_prependenv, Python_appendenv.
  rewrite python_join_value by exact Hvalue. fold sep. cbn [mbind result_bind].
  unfold Python__expand. rewrite self_environ. cbn [mbind result_bind attr]. rewrite Hexp.
  cbn [mbind result_bind]. rewrite Hext. cbn [mbind result_bind]. split; reflexivity.
Qed.

End LiveExecutor.

(** The live executor and a variable that the run has not set: with the
    policy flag on, a variable that the environment mapping holds is
    extended (value, separator, old value for PREPENDENV; the reverse for
    APPENDENV) and one that it does not hold is bound to the value; with the
    flag off the variable is bound to the value in both cases. *)
Theorem live_executor_policy (os_pathsep : string) (self : interpreter)
    (respect : bool) (seps : gmap string string) (vars : gset string)
    (environ : gmap string string) (key : string) (value : pyval) :
  _respect_parent_env self = Some respect ->
  _env_sep_map self = Some seps ->
  _set_env_vars self = Some vars ->
  _environ self = Some environ ->
  key ∉ vars ->
  string_or_sequence value ->
  default os_pathsep (seps !! key) ≠ EmptyString ->
  let sep := default os_pathsep (seps !! key) in
  exists expanded,
    EnvExpand_safe_substitute environ (value_text sep value) = Ok expanded
    ∧ Python_prependenv os_pathsep self key value
      = Ok (with_environ self
              (<[key := match environ !! key with
                        | Some old => if respect then expanded +:+ sep +:+ old else expanded
                        | None => expanded
                        end]> environ))
    ∧ Python_appendenv os_pathsep self key value
      = Ok (with_environ self
              (<[key := match environ !! key with
                        | Some old => if respect then old +:+ sep +:+ expanded else expanded
                        | None => expanded
                        end]> environ)).
Proof.
  intros Hr Hm Hv He Hkey Hvalue Hsep sep.
  assert (Hext : Python_extends self key
                 = Ok (respect && bool_decide (is_Some (environ !! key)))%bool).
  { unfold Python_extends. rewrite Hv, Hr, He. cbn [attr mbind result_bind].
    rewrite bool_decide_eq_false_2 by exact Hkey. now destruct respect. }
  destruct (environ !! key) as [old|] eqn:Hold.
  - destruct respect.
    + apply (python_extend os_pathsep self seps environ key Hm He value old);
        assumption.
    + apply (python_override os_pathsep self seps environ key Hm He value Hvalue).
      rewrite Hext. reflexivity.
  - apply (python_override os_pathsep self seps environ key Hm He value Hvalue).
    rewrite Hext. now destruct respect.
Qed.

Lemma live_executor_policy_witness :
  let environ : gmap string string := {[ "PATH" := "/usr/bin" ]} in
  let self := Python___init__ true environ in
  let sep := default ":" ((∅ : gmap string string) !! "PATH") in
  exists expanded,
    EnvExpand_safe_substitute environ (value_text sep (PStr "/opt/bin")) = Ok expanded
    ∧ Python_prependenv ":" self "PATH" (PStr "/opt/bin")
      = Ok (with_environ self
              (<["PATH" := match environ !! "PATH" with
                           | Some old => if true then expanded +:+ sep +:+ old else expanded
                           | None => expanded
                           end]> environ))
    ∧ Python_appendenv ":" self "PATH" (PStr "/opt/bin")
      = Ok (with_environ self
              (<["PATH" := match environ !! "PATH" with
                           | Some old => if true then old +:+ sep +:+ expanded else expanded
                           | None => expanded
                           end]> environ)).
Proof.
  intros environ self sep.
  apply (live_executor_policy ":" self true ∅ ∅ environ "PATH" (PStr "/opt/bin"));
    try reflexivity; try exact I; [apply not_elem_of_empty | discriminate].
Defined.

(** Reading a variable as a list and writing the list back leaves the
    environment mapping as it is. *)
Theorem env_list_round_trip (os_pathsep : string) (self : interpreter)
    (environ : gmap string string) (key : string) (parts : list string) :
  _environ self = Some environ ->
  Python__get_env_list os_pathsep self key = Ok parts ->
  Python__set_env_list os_pathsep self key parts = Ok (with_environ self environ).
Proof.
  intros He. unfold Python__get_env_list, Python__set_env_list, _env_sep.
  rewrite He. cbn [attr mbind result_bind].
  destruct (environ !! key) as [old|] eqn:Hold; [|discriminate].
  destruct (_env_sep_map self) as [seps|]; [|discriminate]. cbn [attr mbind result_bind].
  unfold Str.split.
  destruct (default os_pathsep (seps !! key)) as [|c sep] eqn:Hsep; [discriminate|].
  intros [= <-]. rewrite join_split by discriminate.
  now rewrite insert_id.
Qed.

Lemma env_list_round_trip_witness :
  Python__set_env_list ":" (Python___init__ true {[ "PATH" := "/a:/b" ]}) "PATH" ["/a"; "/b"]
  = Ok (with_environ (Python___init__ true {[ "PATH" := "/a:/b" ]}) {[ "PATH" := "/a:/b" ]}).
Proof.
  apply (env_list_round_trip ":" (Python___init__ true {[ "PATH" := "/a:/b" ]})
           {[ "PATH" := "/a:/b" ]} "PATH" ["/a"; "/b"]); reflexivity.
Defined.

(** A SETENV of a variable that the environment mapping does not hold,
    followed by an UNSETENV of it, gives the mapping back. *)
Theorem setenv_then_unsetenv (os_pathsep : string) (self : interpreter)
    (seps : gmap string string) (environ : gmap string string)
    (key : string) (value : pyval) :
  _env_sep_map self = Some seps ->
  _environ self = Some environ ->
  environ !! key = None ->
  string_or_sequence value ->
  exists self1 self2,
    Python_setenv os_pathsep self key value = Ok self1
    ∧ Python_unsetenv self1 key = Ok self2
    ∧ _environ self2 = Some environ.
Proof.
  intros Hm He Hkey Hvalue.
  destruct (EnvExpand_total environ (value_text (default os_pathsep (seps !! key)) value))
    as [expanded Hexp].
  exists (with_environ self (<[key := expanded]> environ)).
  exists (with_environ (with_environ self (<[key := expanded]> environ)) environ).
  unfold Python_setenv, Python_unsetenv.
  rewrite (python_join_value os_pathsep self seps key Hm value Hvalue).
  rewrite He. cbn [attr mbind result_bind]. unfold Python__expand. rewrite He.
  cbn [attr mbind result_bind]. rewrite Hexp. cbn [attr mbind result_bind _environ with_environ].
  rewrite lookup_insert_eq. rewrite delete_insert_id by exact Hkey.
  repeat split.
Qed.

Lemma setenv_then_unsetenv_witness :
  exists self1 self2,
    Python_setenv ":" (Python___init__ true ∅) "X" (PList ["a"; "b"]) = Ok self1
    ∧ Python_unsetenv self1 "X" = Ok self2
    ∧ _environ self2 = Some ∅.
Proof.
  apply (setenv_then_unsetenv ":" (Python___init__ true ∅) ∅ ∅ "X" (PList ["a"; "b"]));
    try reflexivity; exact I.
Defined.

(** ** Path utilities *)

(** Splitting a value at the path separator and joining the pieces gives
    the value back. *)
Theorem split_env_then_join_env (os_pathsep value : string) :
  os_pathsep ≠ EmptyString ->
  exists parts, _split_env os_pathsep value = Ok parts
                ∧ _join_env os_pathsep parts = value.
Proof.
  intros Hsep. exists (Str.split_go os_pathsep 0 EmptyString value). split.
  - unfold _split_env, Str.split. destruct os_pathsep; [congruence | reflexivity].
  - unfold _join_env. now apply join_split.
Qed.

Lemma split_env_then_join_env_witness :
  exists parts, _split_env ":" "/a::/b" = Ok parts ∧ _join_env ":" parts = "/a::/b".
Proof. apply (split_env_then_join_env ":" "/a::/b"). discriminate. Defined.

Lemma join_split_char (old : ascii) (new : string) : forall s cur,
  Str.join new (Str.split_go (Str.chr old) 0 cur s) = cur +:+ Str.replace_char old new s.
Proof.
  induction s as [|c s IH]; intros cur.
  - simpl. now rewrite append_nil_r.
  - cbn [Str.split_go Str.startswith Str.chr Str.replace_char].
    rewrite Ascii.eqb_sym.
    destruct (Ascii.eqb c old); cbn [andb String.length Nat.sub].
    + rewrite join_cons by apply split_go_nonempty. rewrite IH. reflexivity.
    + rewrite IH. now rewrite append_assoc.
Qed.

Lemma contains_append (c : ascii) (a b : string) :
  Str.contains c (a +:+ b) = Str.contains c a || Str.contains c b.
Proof.
  induction a as [|d a IH]; [reflexivity|].
  simpl. rewrite IH. now rewrite orb_assoc.
Qed.

Lemma replace_char_removes (old : ascii) (new : string) :
  Str.contains old new = false ->
  forall s, Str.contains old (Str.replace_char old new s) = false.
Proof.
  intros Hnew. induction s as [|c s IH]; [reflexivity|].
  cbn [Str.replace_char]. rewrite contains_append, IH, orb_false_r.
  destruct (Ascii.eqb_spec c old) as [->|Hc]; [exact Hnew|].
  simpl. rewrite ascii_eqb_false by congruence. reflexivity.
Qed.

Lemma replace_char_back (a b : ascii) : forall s,
  Str.contains b s = false ->
  Str.replace_char b (Str.chr a) (Str.replace_char a (Str.chr b) s) = s.
Proof.
  induction s as [|c s IH]; intros Hs; [reflexivity|].
  apply contains_cons_false in Hs as [Hb Hs].
  cbn [Str.replace_char]. destruct (Ascii.eqb_spec c a) as [->|Hc].
  - simpl. rewrite Ascii.eqb_refl. simpl. f_equal. now apply IH.
  - simpl. rewrite ascii_eqb_false by congruence. simpl. f_equal. now apply IH.
Qed.

(** The Windows form of a path has no slash, and for a path without a
    backslash the POSIX form of its Windows form is the path. *)
Theorem ntpath_then_posixpath (path : string) :
  Str.contains "/" (_ntpath path) = false
  ∧ (Str.contains "092" path = false -> _posixpath (_ntpath path) = path).
Proof.
  assert (Hnt : forall p, _ntpath p = Str.replace_char "/" (Str.chr "092") p).
  { intros p. exact (join_split_char "/" (Str.chr "092") p EmptyString). }
  assert (Hposix : forall p, _posixpath p = Str.replace_char "092" (Str.chr "/") p).
  { intros p. exact (join_split_char "092" (Str.chr "/") p EmptyString). }
  rewrite Hposix, Hnt. split.
  - now apply replace_char_removes.
  - now apply replace_char_back.
Qed.

Lemma ntpath_then_posixpath_witness :
  Str.contains "/" (_ntpath "a/b") = false ∧ _posixpath (_ntpath "a/b") = "a/b".
Proof.
  destruct (ntpath_then_posixpath "a/b") as [Hslash Hback].
  split; [exact Hslash | apply Hback; reflexivity].
Defined.

(** ** Choosing an interpreter *)

Lemma rfind_absent (c : ascii) : forall s, Str.contains c s = false -> rfind c s = None.
Proof.
  induction s as [|d s IH]; [reflexivity|]. intros Hs.
  apply contains_cons_false in Hs as [Hd Hs]. simpl. rewrite (IH Hs).
  now rewrite ascii_eqb_false by congruence.
Qed.

Lemma rfind_last (c : ascii) (name : string) :
  Str.contains c name = false ->
  forall dir, rfind c (dir +:+ String c name) = Some (String.length dir).
Proof.
  intros Hname. induction dir as [|d dir IH].
  - simpl. rewrite (rfind_absent _ _ Hname). now rewrite Ascii.eqb_refl.
  - simpl. now rewrite IH.
Qed.

Lemma drop_append (a b : string) : Str.drop (String.length a) (a +:+ b) = b.
Proof. induction a as [|c a IH]; [now destruct b | exact IH]. Qed.

Lemma basename_of_path (dir name : string) :
  Str.contains "/" name = false -> basename (dir +:+ "/" +:+ name) = name.
Proof.
  intros Hname. unfold basename. cbn [String.append].
  rewrite (rfind_last "/" name Hname dir).
  change (S (String.length dir)) with (String.length (String "/" EmptyString) + String.length dir).
  replace (String.length (String "/" EmptyString) + String.length dir)
    with (String.length (dir +:+ "/")) by (rewrite length_append; simpl; lia).
  replace (dir +:+ String "/" name) with ((dir +:+ "/") +:+ name)
    by (now rewrite append_assoc).
  apply drop_append.
Qed.

(** Only the last component of the shell's path chooses the interpreter:
    a shell given with its directory is interpreted as the bare name. *)
Theorem interpret_by_basename (os_pathsep : string) (list2cmdline : list string -> string)
    (os_environ : gmap string string) (get_shell_name : result string)
    (command_list : list command) (dir name : string) (kw : kwargs) :
  Str.contains "/" name = false ->
  interpret os_pathsep list2cmdline os_environ get_shell_name command_list
    (Some (dir +:+ "/" +:+ name)) kw
  = interpret os_pathsep list2cmdline os_environ get_shell_name command_list (Some name) kw.
Proof.
  intros Hname. unfold interpret, get_command_interpreter.
  cbn [mbind result_bind].
  rewrite (basename_of_path dir name Hname).
  assert (Hbare : basename name = name).
  { unfold basename. now rewrite (rfind_absent _ _ Hname). }
  now rewrite Hbare.
Qed.

Lemma interpret_by_basename_witness :
  interpret ":" (fun _ => EmptyString) ∅ (Raise NotImplementedError)
    [Unsetenv "X"] (Some ("/bin" +:+ "/" +:+ "bash")) no_kwargs
  = interpret ":" (fun _ => EmptyString) ∅ (Raise NotImplementedError)
      [Unsetenv "X"] (Some "bash") no_kwargs.
Proof. apply interpret_by_basename. reflexivity. Defined.

(** [interpret] cannot build the Windows interpreter: it always passes
    [env_sep_map], a keyword that the constructor of [WinShell] does not
    have, so the call raises [TypeError] for every command list and every
    choice of keywords. *)
Theorem interpret_dos_fails (os_pathsep : string) (list2cmdline : list string -> string)
    (os_environ : gmap string string) (get_shell_name : result string)
    (command_list : list command) (shell : string) (kw : kwargs) :
  basename shell = "DOS" ->
  interpret os_pathsep list2cmdline os_environ get_shell_name command_list (Some shell) kw
  = Raise unexpected_keyword.
Proof.
  intros Hshell. unfold interpret, get_command_interpreter.
  cbn [mbind result_bind]. rewrite Hshell.
  change (shells !! "DOS") with (Some WinShell).
  cbn [mbind result_bind construct kw_respect_parent_env kw_env_sep_map kw_others].
  now destruct (kw_respect_parent_env kw).
Qed.

Lemma interpret_dos_fails_witness :
  interpret ";" (fun _ => EmptyString) ∅ (Raise NotImplementedError) [] (Some "DOS") no_kwargs
  = Raise unexpected_keyword.
Proof. apply interpret_dos_fails. reflexivity. Defined.

(** The separator that joins a sequence value of a script made by
    [interpret] for a Bourne shell: the caller's map replaces the default
    map as a whole, so [CMAKE_MODULE_PATH] is joined with [;] only when the
    caller passes no map, or a map with that entry; and the first
    assignment of a variable is the plain [export] whether it is a
    [setenv], a [prependenv] or an [appendenv], unless the caller asks to
    respect the parent environment. *)
Theorem interpret_first_assignment (os_pathsep : string)
    (list2cmdline : list string -> string) (os_environ : gmap string string)
    (get_shell_name : result string) (shell key : string) (l : list string) (kw : kwargs) :
  shells !! basename shell = Some SH ->
  kw_set_global kw = None ->
  kw_others kw = [] ->
  default false (kw_respect_parent_env kw) = false ->
  let m := match kw_env_sep_map kw with
           | None => DEFAULT_ENV_SEP_MAP
           | Some None => ∅
           | Some (Some m) => m
           end in
  let line := Ok ("export " +:+ key +:+ "=" +:+ dq
                  +:+ Str.join (default os_pathsep (m !! key)) l +:+ dq) in
  interpret os_pathsep list2cmdline os_environ get_shell_name
    [Setenv key (PList l)] (Some shell) kw = line
  ∧ interpret os_pathsep list2cmdline os_environ get_shell_name
      [Prependenv key (PList l)] (Some shell) kw = line
  ∧ interpret os_pathsep list2cmdline os_environ get_shell_name
      [Appendenv key (PList l)] (Some shell) kw = line.
Proof.
  intros Hshell Hglobal Hothers Hrespect m line. subst m line.
  unfold interpret, get_command_interpreter.
  cbn [mbind result_bind]. rewrite Hshell.
  cbn [mbind result_bind construct kw_set_global kw_others kw_respect_parent_env
       kw_env_sep_map].
  rewrite Hglobal, Hothers, Hrespect.
  unfold CommandInterpreter__execute, CommandInterpreter___init__.
  destruct (kw_env_sep_map kw) as [[m|]|];
    (split; [|split]); cbn [execute_loop call cls emits mbind result_bind];
    unfold SH_prependenv, SH_appendenv, SH_setenv, join_value, _env_sep;
    cbn [mbind result_bind attr _env_sep_map _set_env_vars _respect_parent_env
         default set_key with_set_env_vars negb app py_format pyval_object Str.join];
    try rewrite bool_decide_eq_false_2 by set_solver;
    cbn [mbind result_bind attr _env_sep_map _set_env_vars _respect_parent_env
         default set_key with_set_env_vars negb app py_format pyval_object Str.join];
    reflexivity.
Qed.

Lemma interpret_first_assignment_witness :
  interpret ":" (fun _ => EmptyString) ∅ (Raise NotImplementedError)
    [Setenv "CMAKE_MODULE_PATH" (PList ["a"; "b"])] (Some "bash") no_kwargs
  = Ok ("export CMAKE_MODULE_PATH=" +:+ dq +:+ "a;b" +:+ dq)
  ∧ interpret ":" (fun _ => EmptyString) ∅ (Raise NotImplementedError)
      [Prependenv "CMAKE_MODULE_PATH" (PList ["a"; "b"])] (Some "bash") no_kwargs
    = Ok ("export CMAKE_MODULE_PATH=" +:+ dq +:+ "a;b" +:+ dq)
  ∧ interpret ":" (fun _ => EmptyString) ∅ (Raise NotImplementedError)
      [Appendenv "CMAKE_MODULE_PATH" (PList ["a"; "b"])] (Some "bash") no_kwargs
    = Ok ("export CMAKE_MODULE_PATH=" +:+ dq +:+ "a;b" +:+ dq).
Proof.
  apply (interpret_first_assignment ":" (fun _ => EmptyString) ∅ (Raise NotImplementedError)
           "bash" "CMAKE_MODULE_PATH" ["a"; "b"] no_kwargs); reflexivity.
Defined.

(** ** The host name *)

Lemma split_once_found (c : ascii) (d : string) : forall n cur,
  Str.contains c n = false ->
  split_once c cur (n +:+ String c d) = [cur +:+ n; d].
Proof.
  induction n as [|e n IH]; intros cur Hn.
  - simpl. now rewrite Ascii.eqb_refl, append_nil_r.
  - apply contains_cons_false in Hn as [He Hn]. simpl.
    rewrite ascii_eqb_false by congruence. rewrite (IH _ Hn).
    now rewrite append_assoc.
Qed.

Lemma split_once_absent (c : ascii) : forall s cur,
  Str.contains c s = false -> split_once c cur s = [cur +:+ s].
Proof.
  induction s as [|e s IH]; intros cur Hs.
  - simpl. now rewrite append_nil_r.
  - apply contains_cons_false in Hs as [He Hs]. simpl.
    rewrite ascii_eqb_false by congruence. rewrite (IH _ Hs).
    now rewrite append_assoc.
Qed.

(** For a qualified host name [n.d], the first read of [name] gives [n]
    and fills the three attributes; from then on [domain] gives [d] without
    asking the system again, whatever the system would answer, and the name
    and the domain joined with a dot are the stored qualified name. *)
Theorem machine_name_then_domain (n d later : string) :
  Str.contains "." n = false ->
  let self1 := {| _fqdn := Some (n +:+ "." +:+ d); _name := Some n; _domain := Some d |} in
  MachineInfo_name (n +:+ "." +:+ d) MachineInfo___init__ = (self1, Ok (Some n))
  ∧ MachineInfo_domain later self1 = (self1, Ok (Some d))
  ∧ MachineInfo_name later self1 = (self1, Ok (Some n)).
Proof.
  intros Hn self1. subst self1. split; [|split; reflexivity].
  unfold MachineInfo_name, lazy_fqdn, _populate_fqdn.
  cbn [_name MachineInfo___init__ String.append].
  rewrite (split_once_found "." d n EmptyString Hn). reflexivity.
Qed.

Lemma machine_name_then_domain_witness :
  let self1 := {| _fqdn := Some ("host" +:+ "." +:+ "example.org");
                  _name := Some "host"; _domain := Some "example.org" |} in
  MachineInfo_name ("host" +:+ "." +:+ "example.org") MachineInfo___init__
  = (self1, Ok (Some "host"))
  ∧ MachineInfo_domain "other" self1 = (self1, Ok (Some "example.org"))
  ∧ MachineInfo_name "other" self1 = (self1, Ok (Some "host")).
Proof. apply (machine_name_then_domain "host" "example.org" "other"). reflexivity. Defined.

(** On a host whose qualified name has no dot, reading [name] or [domain]
    raises [ValueError]; the qualified name is stored all the same, the
    name and the domain stay unset, so every later read raises again. *)
Theorem machine_without_domain (fqdn : string) (self : MachineInfo) :
  Str.contains "." fqdn = false ->
  _name self = None ->
  _domain self = None ->
  let self1 := {| _fqdn := Some fqdn; _name := None; _domain := None |} in
  let unpack := Raise (ValueError "need more than 1 value to unpack") in
  MachineInfo_name fqdn self = (self1, unpack)
  ∧ MachineInfo_domain fqdn self = (self1, unpack)
  ∧ MachineInfo_name fqdn self1 = (self1, unpack)
  ∧ MachineInfo_domain fqdn self1 = (self1, unpack).
Proof.
  intros Hfqdn Hname Hdomain self1 unpack. subst self1 unpack.
  unfold MachineInfo_name, MachineInfo_domain, lazy_fqdn, _populate_fqdn.
  cbn [_name _domain]. rewrite Hname, Hdomain.
  rewrite (split_once_absent "." fqdn EmptyString Hfqdn).
  cbn [String.append]. now rewrite ?Hname, ?Hdomain.
Qed.

Lemma machine_without_domain_witness :
  let self1 := {| _fqdn := Some "localhost"; _name := None; _domain := None |} in
  let unpack := Raise (ValueError "need more than 1 value to unpack") in
  MachineInfo_name "localhost" MachineInfo___init__ = (self1, unpack)
  ∧ MachineInfo_domain "localhost" MachineInfo___init__ = (self1, unpack)
  ∧ MachineInfo_name "localhost" self1 = (self1, unpack)
  ∧ MachineInfo_domain "localhost" self1 = (self1, unpack).
Proof. apply (machine_without_domain "localhost" MachineInfo___init__); reflexivity. Defined.

(** ** Package families *)

Lemma split_go_head (c : ascii) (rest : string) : forall n cur,
  Str.contains c n = false ->
  Str.split_go (Str.chr c) 0 cur (n +:+ String c rest)
  = (cur +:+ n) :: Str.split_go (Str.chr c) 0 EmptyString rest.
Proof.
  induction n as [|e n IH]; intros cur Hn.
  - cbn [String.append Str.split_go Str.startswith Str.chr].
    rewrite Ascii.eqb_refl. cbn [andb String.length Nat.sub]. now rewrite append_nil_r.
  - apply contains_cons_false in Hn as [He Hn].
    cbn [String.append Str.split_go Str.startswith Str.chr].
    rewrite ascii_eqb_false by exact He. cbn [andb].
    rewrite (IH _ Hn). now rewrite append_assoc.
Qed.

Lemma split_go_head_clean (c : ascii) : forall s cur,
  Str.contains c cur = false ->
  Str.contains c (hd EmptyString (Str.split_go (Str.chr c) 0 cur s)) = false.
Proof.
  induction s as [|e s IH]; intros cur Hcur; [exact Hcur|].
  cbn [Str.split_go Str.startswith Str.chr].
  destruct (Ascii.eqb_spec c e) as [->|He]; cbn [andb]; [exact Hcur|].
  apply IH. rewrite contains_append, Hcur. simpl.
  now rewrite ascii_eqb_false by exact He.
Qed.

Lemma split_go_absent (c : ascii) : forall s cur,
  Str.contains c s = false -> Str.split_go (Str.chr c) 0 cur s = [cur +:+ s].
Proof.
  induction s as [|e s IH]; intros cur Hs.
  - simpl. now rewrite append_nil_r.
  - apply contains_cons_false in Hs as [He Hs].
    cbn [Str.split_go Str.startswith Str.chr].
    rewrite ascii_eqb_false by exact He. cbn [andb].
    rewrite (IH _ Hs). now rewrite append_assoc.
Qed.

(** The family of a package name has no dash, and the family of
    [name-version] is [name] when [name] has no dash, whatever the
    version is (dashes included). *)
Theorem unversioned_family (name version : string) :
  Str.contains "-" (unversioned (name +:+ "-" +:+ version)) = false
  ∧ (Str.contains "-" name = false ->
     unversioned (name +:+ "-" +:+ version) = name ∧ unversioned name = name).
Proof.
  split.
  - apply (split_go_head_clean "-"). reflexivity.
  - intros Hname. unfold unversioned. change "-" with (Str.chr "-"). split.
    + cbn [String.append Str.chr].
      now rewrite (split_go_head "-" version name EmptyString Hname).
    + now rewrite (split_go_absent "-" name EmptyString Hname).
Qed.

Lemma unversioned_family_witness :
  Str.contains "-" (unversioned ("foo" +:+ "-" +:+ "1.2-beta")) = false
  ∧ unversioned ("foo" +:+ "-" +:+ "1.2-beta") = "foo" ∧ unversioned "foo" = "foo".
Proof.
  destruct (unversioned_family "foo" "1.2-beta") as [Hclean Hfamily].
  split; [exact Hclean | apply Hfamily; reflexivity].
Defined.

(** ** From a script to shell text *)

(** End to end: the assignment [NAME = text] of an all-capitals name, for
    a text in which every brace comes right after a dollar, run in a fresh
    routing namespace and then interpreted, is the one line that exports
    the text as it was written, for the Bourne shells and for the C shells,
    whatever the variables of the namespace and the policy of the
    interpreter. *)
Theorem script_of_assignment (os_pathsep : string) (list2cmdline : list string -> string)
    (scope : gmap string pyval) (key text : string) (respect : bool)
    (env_sep_map : option (gmap string string)) :
  ALL_CAPS_match key = true ->
  dollar_guarded None text = true ->
  exists g',
    exec (RoutingDict___init__ scope) [Assign key (PStr text)] = Ok g'
    ∧ snd <$> CommandInterpreter__execute os_pathsep list2cmdline
                (CommandInterpreter___init__ SH respect env_sep_map)
                (get_commands (command_recorder g'))
      = Ok ("export " +:+ key +:+ "=" +:+ dq +:+ text +:+ dq)
    ∧ snd <$> CommandInterpreter__execute os_pathsep list2cmdline
                (CommandInterpreter___init__ CSH respect env_sep_map)
                (get_commands (command_recorder g'))
      = Ok ("setenv " +:+ key +:+ " " +:+ dq +:+ text +:+ dq).
Proof.
  intros Hcaps Hguard.
  assert (Hexpand : forall store, expand store text = Ok text).
  { intros store. unfold expand, CustomExpand_safe_substitute, Template.safe_substitute.
    now apply sub_guarded. }
  cbn [exec exec_stmt]. unfold RoutingDict___setitem__. rewrite Hcaps.
  unfold EnvironDict___setitem__, EnvironDict___getitem__, EnvironmentVariable_call.
  cbn [vars command_recorder]. unfold setenv, record2, CommandRecorder__expand.
  cbn [_expandfunc RoutingDict___init__ command_recorder]. rewrite Hexpand.
  cbn [mbind result_bind]. eexists. split; [reflexivity|].
  split; reflexivity.
Qed.

Lemma script_of_assignment_witness :
  exists g',
    exec (RoutingDict___init__ ∅) [Assign "REZ_HOME" (PStr "/opt/${USER}")] = Ok g'
    ∧ snd <$> CommandInterpreter__execute ":" (fun _ => EmptyString)
                (CommandInterpreter___init__ SH false None)
                (get_commands (command_recorder g'))
      = Ok ("export " +:+ "REZ_HOME" +:+ "=" +:+ dq +:+ "/opt/${USER}" +:+ dq)
    ∧ snd <$> CommandInterpreter__execute ":" (fun _ => EmptyString)
                (CommandInterpreter___init__ CSH false None)
                (get_commands (command_recorder g'))
      = Ok ("setenv " +:+ "REZ_HOME" +:+ " " +:+ dq +:+ "/opt/${USER}" +:+ dq).
Proof.
  apply (script_of_assignment ":" (fun _ => EmptyString) ∅ "REZ_HOME" "/opt/${USER}"
           false None); reflexivity.
Defined.
